(** * SimpleIM gateway: connection lifecycle, deduplication, dispatch

    A shallow embedding of the gateway core of d60-Lab/SimpleIM:

    - package [model]: the message envelope and the conversation-identity
      encoders ([GetSingleChatConversationID], [GetGroupChatConversationID]);
    - package [gateway], connection.go: [Connection] with its bounded outbound
      queue, and [ConnectionManager] with [Register] / [Unregister];
    - package [gateway], the WebSocket handler: [MessageDeduper],
      [handleMessage] and the per-type handlers;
    - package [gateway], the dispatcher: [GetUserNode], [pushToLocalUser],
      [publishToNode], [DispatchToUsers].

    Conventions.  Go strings are [string] (sequences of 8-bit characters,
    compared bytewise).  Wall-clock readings ([time.Now()]) are arguments.
    Pointers to connections are addresses into a heap of [Connection] values,
    so that the registry maps and their callers share one object.  Code is
    modelled one call at a time: a mutex-protected method is one atomic
    state transformer. *)

From Stdlib Require Import ZArith String Ascii List Bool Lia.
From stdpp Require Import gmap strings list fin_maps sorting.
From Stdlib Require Import DecimalString.

Set Warnings "-register-all".

Local Open Scope string_scope.
Local Open Scope Z_scope.
Local Open Scope list_scope.

(* ===================================================================== *)
(** * Package model                                                       *)
(* ===================================================================== *)

(** [type MessageType int] with the constants the gateway refers to. *)
Definition MessageType := Z.

Definition MsgText        : MessageType := 0.
Definition MsgSingleChat  : MessageType := 1.
Definition MsgGroupChat   : MessageType := 2.
Definition MsgSystem      : MessageType := 3.
Definition MsgAck         : MessageType := 30.
Definition MsgReadReceipt : MessageType := 31.
Definition MsgRevoke      : MessageType := 32.
Definition MsgTyping      : MessageType := 33.
Definition MsgHeartbeat   : MessageType := 99.
Definition MsgKickout     : MessageType := 100.

(** What [json.Unmarshal] stores into an [interface{}]: objects become
    [map[string]interface{}], numbers [float64].  A number is kept as the
    integer that [int64(n)] yields; objects are association lists looked up
    by key. *)
Inductive JSON :=
  | JNull
  | JBool (b : bool)
  | JNum (n : Z)
  | JStr (s : string)
  | JArr (l : list JSON)
  | JObj (kv : list (string * JSON)).

Record AckContent := { ack_MessageID : string; ack_Status : Z }.

Record ReadReceiptContent := {
  rr_ConversationID : string;
  rr_MessageIDs : list string;
  rr_LastReadSeq : Z
}.

Record HeartbeatContent := { hb_Timestamp : Z }.

Record KickoutContent := { ko_Reason : string; ko_DeviceID : string }.

(** The dynamic values held by [Message.Content] ([interface{}]) in the code
    modelled here. *)
Inductive MsgContent :=
  | CNil
  | CJSON (v : JSON)
  | CAck (a : AckContent)
  | CReadReceipt (r : ReadReceiptContent)
  | CHeartbeat (h : HeartbeatContent)
  | CKickout (k : KickoutContent)
  | CStringMap (kv : list (string * string)).

Record Message := {
  MessageID : string;
  Type_ : MessageType;
  From : string;
  To : string;
  Content : MsgContent;
  ContentRaw : string;
  Timestamp : Z;
  ClientTimestamp : Z;
  QoS : Z;
  ConversationID : string;
  Seq : Z;
  Revoked : bool;
  CreatedAt : Z
}.

(** The composite literal [&model.Message{Type: ..., Content: ...,
    Timestamp: ...}]: the other fields have their zero values. *)
Definition mkMessage (ty : MessageType) (c : MsgContent) (ts : Z) : Message :=
  {| MessageID := ""; Type_ := ty; From := ""; To := ""; Content := c;
     ContentRaw := ""; Timestamp := ts; ClientTimestamp := 0; QoS := 0;
     ConversationID := ""; Seq := 0; Revoked := false; CreatedAt := 0 |}.

(** Field assignments [msg.F = v] on a message. *)
Definition set_MessageID (m : Message) (v : string) : Message :=
  {| MessageID := v; Type_ := Type_ m; From := From m; To := To m;
     Content := Content m; ContentRaw := ContentRaw m; Timestamp := Timestamp m;
     ClientTimestamp := ClientTimestamp m; QoS := QoS m;
     ConversationID := ConversationID m; Seq := Seq m; Revoked := Revoked m;
     CreatedAt := CreatedAt m |}.

Definition set_From (m : Message) (v : string) : Message :=
  {| MessageID := MessageID m; Type_ := Type_ m; From := v; To := To m;
     Content := Content m; ContentRaw := ContentRaw m; Timestamp := Timestamp m;
     ClientTimestamp := ClientTimestamp m; QoS := QoS m;
     ConversationID := ConversationID m; Seq := Seq m; Revoked := Revoked m;
     CreatedAt := CreatedAt m |}.

Definition set_Timestamp (m : Message) (v : Z) : Message :=
  {| MessageID := MessageID m; Type_ := Type_ m; From := From m; To := To m;
     Content := Content m; ContentRaw := ContentRaw m; Timestamp := v;
     ClientTimestamp := ClientTimestamp m; QoS := QoS m;
     ConversationID := ConversationID m; Seq := Seq m; Revoked := Revoked m;
     CreatedAt := CreatedAt m |}.

Definition set_ConversationID (m : Message) (v : string) : Message :=
  {| MessageID := MessageID m; Type_ := Type_ m; From := From m; To := To m;
     Content := Content m; ContentRaw := ContentRaw m; Timestamp := Timestamp m;
     ClientTimestamp := ClientTimestamp m; QoS := QoS m;
     ConversationID := v; Seq := Seq m; Revoked := Revoked m;
     CreatedAt := CreatedAt m |}.

(** [NewHeartbeatMessage]: both timestamps read the clock. *)
Definition NewHeartbeatMessage (now : Z) : Message :=
  mkMessage MsgHeartbeat (CHeartbeat {| hb_Timestamp := now |}) now.

(** [NewAckMessage(messageID, status)]. *)
Definition NewAckMessage (messageID : string) (status now : Z) : Message :=
  mkMessage MsgAck
    (CAck {| ack_MessageID := messageID; ack_Status := status |}) now.

(** [GetSingleChatConversationID]: Go's [<] on strings is the bytewise
    lexicographic order, which is [String.ltb]. *)
Definition GetSingleChatConversationID (userID1 userID2 : string) : string :=
  if String.ltb userID1 userID2
  then "single:" +:+ userID1 +:+ ":" +:+ userID2
  else "single:" +:+ userID2 +:+ ":" +:+ userID1.

Definition GetGroupChatConversationID (groupID : string) : string :=
  "group:" +:+ groupID.

(* ===================================================================== *)
(** * Package util                                                        *)
(* ===================================================================== *)

(** [GenerateConversationID]: the second encoder of conversation IDs in the
    repository, [fmt.Sprintf("single_%s_%s", ...)] for a single chat
    ([convType == 1]) and [fmt.Sprintf("group_%s", id1)] otherwise. *)
Definition GenerateConversationID (convType : Z) (id1 id2 : string) : string :=
  if convType =? 1 then
    if String.ltb id1 id2 then "single_" +:+ id1 +:+ "_" +:+ id2
    else "single_" +:+ id2 +:+ "_" +:+ id1
  else "group_" +:+ id1.

(* ===================================================================== *)
(** * Errors and library functions                                        *)
(* ===================================================================== *)

(** [ConnectionError] and the package-level error values of connection.go. *)
Record ConnectionError := { Code : Z; ErrMessage : string }.

Definition ErrConnectionClosed : ConnectionError :=
  {| Code := 1001; ErrMessage := "connection closed" |}.
Definition ErrSendBufferFull : ConnectionError :=
  {| Code := 1002; ErrMessage := "send buffer full" |}.
Definition ErrInvalidMessage : ConnectionError :=
  {| Code := 1003; ErrMessage := "invalid message" |}.
Definition ErrUserNotOnline : ConnectionError :=
  {| Code := 1004; ErrMessage := "user not online" |}.

(** Go's [error] values met in the gateway: a [*ConnectionError], an error of
    a collaborator or library (transport, store, saver), [fmt.Errorf] with
    [%w] around another error, and the aggregate that [DispatchToUsers]
    formats from the collected errors.  [None : option error] is [nil]. *)
Inductive error :=
  | EConn (e : ConnectionError)
  | EExternal (what : string)
  | EWrap (prefix : string) (e : error)
  | EDispatch (errs : list error).

Definition bytes := list Byte.byte.

(** Route envelope published on a node's channel. *)
Record RouteMessage := { TargetUsers : list string; RMessage : Message }.

(** Library functions the gateway calls and whose output format plays no
    role below: [json.Marshal] on a message and on a route envelope, and the
    scan [fmt.Sscanf(val, "%[^:]", &nodeID)] that [GetUserNode] uses to read
    the node out of an online-status record.  [json.Marshal] fails only on
    values that JSON cannot express (channels, functions, cyclic data, NaN);
    [MsgContent] has none of them, so the [err != nil] branches that follow
    a [json.Marshal] are not reachable here and are left out. *)
Class GoLib := {
  json_Marshal : Message -> bytes;
  json_Marshal_route : RouteMessage -> bytes;
  Sscanf_nodeID : string -> string
}.

(* ===================================================================== *)
(** * Package gateway: Connection                                         *)
(* ===================================================================== *)

Inductive ConnectionState :=
  | StateConnecting
  | StateConnected
  | StateClosing
  | StateClosed.

(** A buffered channel of byte slices, [chan []byte]: queued items in FIFO
    order, the capacity given to [make] (which panics on a negative one),
    and whether [close] was called. *)
Record Chan := { buf : list bytes; cap : nat; chClosed : bool }.

Definition make_chan (n : Z) : Chan :=
  {| buf := []; cap := Z.to_nat n; chClosed := false |}.

Definition close_chan (ch : Chan) : Chan :=
  {| buf := buf ch; cap := cap ch; chClosed := true |}.

(** [select { case ch <- data: ...; default: ... }]: the send case is taken
    when the buffer has room, the default case otherwise.  No receiver is
    parked in this sequential model, so a channel of capacity zero always
    takes the default case.  A send on a closed channel panics in Go; [Send]
    is closed only by [Close], which sets [closed] under the same lock, and
    [SendMessage] tests [closed] before the select. *)
Definition chan_try_send (ch : Chan) (data : bytes) : option Chan :=
  if (length (buf ch) <? cap ch)%nat
  then Some {| buf := buf ch ++ [data]; cap := cap ch; chClosed := chClosed ch |}
  else None.

(** The transport, [*websocket.Conn]: how often its [Close] ran and the error
    its [Close] reports. *)
Record WSConn := { wsCloseCalls : nat; wsCloseErr : option error }.

Definition ws_Close (t : WSConn) : WSConn * option error :=
  ({| wsCloseCalls := S (wsCloseCalls t); wsCloseErr := wsCloseErr t |},
   wsCloseErr t).

Record Connection := {
  ID : string;
  UserID : string;
  Conn : WSConn;
  Send : Chan;
  NodeID : string;
  Platform : string;
  DeviceID : string;
  State : ConnectionState;
  LastActive : Z;
  ConnCreatedAt : Z;
  closed : bool;
  closedCh : bool
}.

Record ConnectionConfig := {
  ReadBufferSize : Z;
  WriteBufferSize : Z;
  MaxMessageSize : Z;
  PingInterval : Z;
  PongTimeout : Z;
  WriteTimeout : Z;
  ReadTimeout : Z;
  SendChannelSize : Z;
  HandshakeTimeout : Z
}.

Definition second : Z := 1000000000.

Definition DefaultConnectionConfig : ConnectionConfig :=
  {| ReadBufferSize := 1024; WriteBufferSize := 1024; MaxMessageSize := 65536;
     PingInterval := 30 * second; PongTimeout := 60 * second;
     WriteTimeout := 10 * second; ReadTimeout := 60 * second;
     SendChannelSize := 256; HandshakeTimeout := 10 * second |}.

(** [NewConnection]: a [nil] config selects the default one; [now] is the
    clock reading for both timestamps.  The field [CreatedAt] of the source
    is [ConnCreatedAt] here, [Message] having one of the same name. *)
Definition NewConnection (id userID nodeID : string) (conn : WSConn)
    (config : option ConnectionConfig) (now : Z) : Connection :=
  let config := default DefaultConnectionConfig config in
  {| ID := id; UserID := userID; Conn := conn;
     Send := make_chan (SendChannelSize config);
     NodeID := nodeID; Platform := ""; DeviceID := "";
     State := StateConnected; LastActive := now; ConnCreatedAt := now;
     closed := false; closedCh := false |}.

(** The state a first [Close] leaves behind, before the transport is closed:
    [c.closed = true; c.State = StateClosed; close(c.closedCh); close(c.Send)]. *)
Definition mark_closed (c : Connection) : Connection :=
  {| ID := ID c; UserID := UserID c; Conn := Conn c;
     Send := close_chan (Send c);
     NodeID := NodeID c; Platform := Platform c; DeviceID := DeviceID c;
     State := StateClosed; LastActive := LastActive c;
     ConnCreatedAt := ConnCreatedAt c; closed := true; closedCh := true |}.

Definition set_Conn (c : Connection) (t : WSConn) : Connection :=
  {| ID := ID c; UserID := UserID c; Conn := t; Send := Send c;
     NodeID := NodeID c; Platform := Platform c; DeviceID := DeviceID c;
     State := State c; LastActive := LastActive c;
     ConnCreatedAt := ConnCreatedAt c; closed := closed c;
     closedCh := closedCh c |}.

Definition set_Send (c : Connection) (ch : Chan) : Connection :=
  {| ID := ID c; UserID := UserID c; Conn := Conn c; Send := ch;
     NodeID := NodeID c; Platform := Platform c; DeviceID := DeviceID c;
     State := State c; LastActive := LastActive c;
     ConnCreatedAt := ConnCreatedAt c; closed := closed c;
     closedCh := closedCh c |}.

(** [Close]: a closed connection returns [nil] at once; otherwise the flags
    are set, both channels are closed and the transport's [Close] result is
    returned. *)
Definition Close (c : Connection) : Connection * option error :=
  if closed c then (c, None)
  else
    let c1 := mark_closed c in
    let '(t, r) := ws_Close (Conn c1) in
    (set_Conn c1 t, r).

Definition IsClosed (c : Connection) : bool := closed c.

(** [SendMessage]: the closed test, then the non-blocking enqueue. *)
Definition SendMessage (c : Connection) (data : bytes)
    : Connection * option error :=
  if closed c then (c, Some (EConn ErrConnectionClosed))
  else
    match chan_try_send (Send c) data with
    | Some ch => (set_Send c ch, None)
    | None => (c, Some (EConn ErrSendBufferFull))
    end.

(** [SendJSON] on a message. *)
Definition SendJSON `{GoLib} (c : Connection) (v : Message)
    : Connection * option error :=
  SendMessage c (json_Marshal v).

(** [UpdateLastActive], [SetPlatform], [SetDeviceID]: assignments under the
    lock, with no test of [closed]. *)
Definition UpdateLastActive (c : Connection) (now : Z) : Connection :=
  {| ID := ID c; UserID := UserID c; Conn := Conn c; Send := Send c;
     NodeID := NodeID c; Platform := Platform c; DeviceID := DeviceID c;
     State := State c; LastActive := now;
     ConnCreatedAt := ConnCreatedAt c; closed := closed c;
     closedCh := closedCh c |}.

Definition GetLastActive (c : Connection) : Z := LastActive c.

Definition SetPlatform (c : Connection) (platform : string) : Connection :=
  {| ID := ID c; UserID := UserID c; Conn := Conn c; Send := Send c;
     NodeID := NodeID c; Platform := platform; DeviceID := DeviceID c;
     State := State c; LastActive := LastActive c;
     ConnCreatedAt := ConnCreatedAt c; closed := closed c;
     closedCh := closedCh c |}.

Definition SetDeviceID (c : Connection) (deviceID : string) : Connection :=
  {| ID := ID c; UserID := UserID c; Conn := Conn c; Send := Send c;
     NodeID := NodeID c; Platform := Platform c; DeviceID := deviceID;
     State := State c; LastActive := LastActive c;
     ConnCreatedAt := ConnCreatedAt c; closed := closed c;
     closedCh := closedCh c |}.

(** [Done] returns [closedCh]; it is readable once that channel is closed. *)
Definition Done (c : Connection) : bool := closedCh c.

(* ===================================================================== *)
(** * Package gateway: ConnectionManager                                  *)
(* ===================================================================== *)

(** A [*Connection] is an address; the heap gives the object it points to.
    Every address holds an object (Go has no dangling pointers); [Register]
    on a [nil] pointer panics and is not modelled. *)
Definition addr := nat.
Definition Heap := addr -> Connection.

Definition heap_set (h : Heap) (a : addr) (c : Connection) : Heap :=
  fun x => if decide (x = a) then c else h x.

(** [int64] arithmetic wraps around. *)
Definition wrap64 (z : Z) : Z := (z + 2 ^ 63) mod 2 ^ 64 - 2 ^ 63.

(** The two [sync.Map]s hold pointers.  The callbacks are function fields
    that may be unset; what the manager does with them is to start a
    goroutine, recorded in [spawned]. *)
Record ConnectionManager := {
  connections : gmap string addr;
  connByID : gmap string addr;
  nodeID : string;
  config : ConnectionConfig;
  totalConnections : Z;
  activeUsers : Z;
  onConnect : bool;
  onDisconnect : bool
}.

Inductive Spawn :=
  | GoOnConnect (a : addr)
  | GoOnDisconnect (a : addr).

Record World := {
  heap : Heap;
  mgr : ConnectionManager;
  spawned : list Spawn
}.

Definition NewConnectionManager (node : string) (cfg : option ConnectionConfig)
    : ConnectionManager :=
  {| connections := ∅; connByID := ∅; nodeID := node;
     config := default DefaultConnectionConfig cfg;
     totalConnections := 0; activeUsers := 0;
     onConnect := false; onDisconnect := false |}.

Definition set_maps (m : ConnectionManager) (cs ids : gmap string addr)
    : ConnectionManager :=
  {| connections := cs; connByID := ids; nodeID := nodeID m;
     config := config m; totalConnections := totalConnections m;
     activeUsers := activeUsers m; onConnect := onConnect m;
     onDisconnect := onDisconnect m |}.

Definition set_stats (m : ConnectionManager) (total active : Z)
    : ConnectionManager :=
  {| connections := connections m; connByID := connByID m; nodeID := nodeID m;
     config := config m; totalConnections := total;
     activeUsers := active; onConnect := onConnect m;
     onDisconnect := onDisconnect m |}.

(** [countActiveUsers]: one increment per entry of [connections]. *)
Definition countActiveUsers (m : ConnectionManager) : Z :=
  wrap64 (Z.of_nat (size (connections m))).

Definition Count (m : ConnectionManager) : Z :=
  Z.of_nat (size (connections m)).

(** The kick-out notice built by [Register] for the evicted connection; the
    reason text is the literal of the source. *)
Definition kickReason : string := "您的账号在其他设备登录".

Definition kickMsg (deviceID : string) (now : Z) : Message :=
  mkMessage MsgKickout
    (CKickout {| ko_Reason := kickReason; ko_DeviceID := deviceID |}) now.

Section Manager.
Context `{GoLib}.

(** First half of [Register]: [LoadAndDelete] on the user's slot; a loaded
    old connection is sent the kick-out notice, closed, and deleted from
    [connByID].  The results of [SendJSON] and [Close] are discarded. *)
Definition evict_old (w : World) (a : addr) (now : Z) : World :=
  let conn := heap w a in
  match connections (mgr w) !! UserID conn with
  | Some old =>
      let cs := delete (UserID conn) (connections (mgr w)) in
      let oldConn := heap w old in
      let c1 := (SendJSON oldConn (kickMsg (DeviceID conn) now)).1 in
      let c2 := (Close c1).1 in
      {| heap := heap_set (heap w) old c2;
         mgr := set_maps (mgr w) cs (delete (ID c2) (connByID (mgr w)));
         spawned := spawned w |}
  | None => w
  end.

(** Second half of [Register]: both stores, the statistics, the callback. *)
Definition store_new (w : World) (a : addr) : World :=
  let conn := heap w a in
  let m1 := set_maps (mgr w)
              (<[UserID conn := a]> (connections (mgr w)))
              (<[ID conn := a]> (connByID (mgr w))) in
  let m2 := set_stats m1 (wrap64 (totalConnections m1 + 1))
              (countActiveUsers m1) in
  {| heap := heap w; mgr := m2;
     spawned := if onConnect m2 then spawned w ++ [GoOnConnect a]
                else spawned w |}.

Definition Register (w : World) (a : addr) (now : Z) : World :=
  store_new (evict_old w a now) a.

(** [Unregister]: the user's slot is deleted only while it still holds a
    connection with this ID. *)
Definition Unregister (w : World) (a : addr) : World :=
  let conn := heap w a in
  let m := mgr w in
  let cs :=
    match connections m !! UserID conn with
    | Some cur =>
        if String.eqb (ID (heap w cur)) (ID conn)
        then delete (UserID conn) (connections m)
        else connections m
    | None => connections m
    end in
  let m1 := set_maps m cs (delete (ID conn) (connByID m)) in
  let m2 := set_stats m1 (totalConnections m1) (countActiveUsers m1) in
  {| heap := heap w; mgr := m2;
     spawned := if onDisconnect m2 then spawned w ++ [GoOnDisconnect a]
                else spawned w |}.

End Manager.

Definition GetConnection (w : World) (userID : string) : option addr :=
  connections (mgr w) !! userID.

Definition GetConnectionByID (w : World) (connID : string) : option addr :=
  connByID (mgr w) !! connID.

Definition IsOnline (w : World) (userID : string) : bool :=
  bool_decide (is_Some (connections (mgr w) !! userID)).

(* ===================================================================== *)
(** * Package gateway: MessageDeduper                                     *)
(* ===================================================================== *)

(** [cache map[string]int64] from message ID to the Unix second at which it
    was first seen, and the configured capacity [size]. *)
Record MessageDeduper := {
  cache : gmap string Z;
  dsize : Z
}.

Definition NewMessageDeduper (n : Z) : MessageDeduper :=
  {| cache := ∅; dsize := n |}.

(** One iteration of the loop of [evictOldest]:
    [if v < oldest { oldest = v; oldestKey = k }]. *)
Definition scan_step (acc : Z * string) (kv : string * Z) : Z * string :=
  if (kv.2 <? acc.1)%Z then (kv.2, kv.1) else acc.

(** The loop, started from [oldest := time.Now().Unix()] and
    [oldestKey = ""], over the entries in the order the [range] visits them. *)
Definition scan_oldest (now : Z) (entries : list (string * Z)) : Z * string :=
  fold_left scan_step entries (now, "").

(** [evictOldest].  Go leaves the iteration order of a map unspecified; the
    model visits the entries in the order of [map_to_list]. *)
Definition evictOldest (d : MessageDeduper) (now : Z) : MessageDeduper :=
  let oldestKey := (scan_oldest now (map_to_list (cache d))).2 in
  if String.eqb oldestKey "" then d
  else {| cache := delete oldestKey (cache d); dsize := dsize d |}.

(** [IsDuplicate]; [now] is the reading of [time.Now().Unix()] during the
    call. *)
Definition IsDuplicate (d : MessageDeduper) (messageID : string) (now : Z)
    : bool * MessageDeduper :=
  match cache d !! messageID with
  | Some _ => (true, d)
  | None =>
      let d1 := if (Z.of_nat (size (cache d)) >=? dsize d)%Z
                then evictOldest d now else d in
      (false, {| cache := <[messageID := now]> (cache d1); dsize := dsize d1 |})
  end.

(* ===================================================================== *)
(** * Package gateway: the WebSocket handler                              *)
(* ===================================================================== *)

(** The collaborators behind interfaces are given by the error each call
    returns; the calls themselves are recorded, in order. *)
Inductive Call :=
  | CallSaveMessage (m : Message)
  | CallDispatchToUsers (userIDs : list string) (m : Message)
  | CallDispatchToConversation (conversationID : string) (m : Message)
      (excludeUserID : string)
  | CallOnMessage (m : Message).

(** [MessageSaver]: the error [SaveMessage(ctx, msg)] returns. *)
Definition MessageSaver := Message -> option error.

(** [MessageDispatcher], as far as the handler calls it. *)
Record MessageDispatcher := {
  DispatchToUsers_result : list string -> Message -> option error;
  DispatchToConversation_result : string -> Message -> string -> option error
}.

Record WebSocketHandler := {
  dispatcher : MessageDispatcher;
  deduper : MessageDeduper;
  messageSaver : option MessageSaver;
  onMessage : option (Connection -> Message -> option error)
}.

Definition set_deduper (h : WebSocketHandler) (d : MessageDeduper)
    : WebSocketHandler :=
  {| dispatcher := dispatcher h; deduper := d;
     messageSaver := messageSaver h; onMessage := onMessage h |}.

(** What one call of the handler reads from its environment: the clock, in
    milliseconds and in seconds, and the ID that [util.GenerateMessageID]
    would return. *)
Record Env := {
  nowMilli : Z;
  nowUnix : Z;
  freshID : string
}.

(** Result of a handler: the connection after the sends on it, the calls
    made to collaborators, and the returned error. *)
Record Outcome := {
  out_conn : Connection;
  out_calls : list Call;
  out_err : option error
}.

(** [parts[i:]] and [parts[:i]] on strings. *)
Fixpoint string_drop (n : nat) (s : string) : string :=
  match n, s with
  | O, _ => s
  | S n', String _ s' => string_drop n' s'
  | S _, EmptyString => EmptyString
  end.

Fixpoint string_take (n : nat) (s : string) : string :=
  match n, s with
  | S n', String a s' => String a (string_take n' s')
  | _, _ => EmptyString
  end.

(** The largest index at which [c] occurs, which is where the loop
    [for i := len(parts) - 1; i >= 0; i--] stops. *)
Fixpoint last_index (c : ascii) (s : string) : option nat :=
  match s with
  | EmptyString => None
  | String a s' =>
      match last_index c s' with
      | Some i => Some (S i)
      | None => if Ascii.eqb a c then Some O else None
      end
  end.

Fixpoint assoc_get {A} (key : string) (kv : list (string * A)) : option A :=
  match kv with
  | [] => None
  | (k, v) :: rest => if String.eqb k key then Some v else assoc_get key rest
  end.

Definition getString (m : list (string * JSON)) (key : string) : string :=
  match assoc_get key m with
  | Some (JStr s) => s
  | _ => ""
  end.

Definition getInt64 (m : list (string * JSON)) (key : string) : Z :=
  match assoc_get key m with
  | Some (JNum n) => n
  | _ => 0
  end.

(** The content a read receipt is read from: the typed struct, or the map a
    decoded frame carries. *)
Definition readReceiptContent (c : MsgContent) : option ReadReceiptContent :=
  match c with
  | CReadReceipt r => Some r
  | CJSON (JObj contentMap) =>
      Some {| rr_ConversationID := getString contentMap "conversation_id";
              rr_MessageIDs := [];
              rr_LastReadSeq := getInt64 contentMap "last_read_seq" |}
  | _ => None
  end.

Section Handler.
Context `{GoLib}.

Definition handleHeartbeat (env : Env) (conn : Connection) : Outcome :=
  let '(c, err) := SendJSON conn (NewHeartbeatMessage (nowMilli env)) in
  {| out_conn := c; out_calls := []; out_err := err |}.

(** The optional save: a failure is logged, nothing else. *)
Definition save_calls (h : WebSocketHandler) (msg : Message) : list Call :=
  match messageSaver h with
  | Some _ => [CallSaveMessage msg]
  | None => []
  end.

Definition handleSingleChat (h : WebSocketHandler) (env : Env)
    (conn : Connection) (msg : Message) : Outcome :=
  let msg := set_ConversationID msg
               (GetSingleChatConversationID (From msg) (To msg)) in
  let c := (SendJSON conn (NewAckMessage (MessageID msg) 0 (nowMilli env))).1 in
  {| out_conn := c;
     out_calls := save_calls h msg ++ [CallDispatchToUsers [To msg] msg];
     out_err := DispatchToUsers_result (dispatcher h) [To msg] msg |}.

Definition handleGroupChat (h : WebSocketHandler) (env : Env)
    (conn : Connection) (msg : Message) : Outcome :=
  let msg := set_ConversationID msg (GetGroupChatConversationID (To msg)) in
  let c := (SendJSON conn (NewAckMessage (MessageID msg) 0 (nowMilli env))).1 in
  {| out_conn := c;
     out_calls := save_calls h msg
                  ++ [CallDispatchToConversation (ConversationID msg) msg
                        (From msg)];
     out_err := DispatchToConversation_result (dispatcher h)
                  (ConversationID msg) msg (From msg) |}.

Definition handleAck (conn : Connection) : Outcome :=
  {| out_conn := conn; out_calls := []; out_err := None |}.

(** [handleReadReceipt]: for a conversation ID that starts with ["single_"],
    the rest is split at its last underscore and the receipt goes to the
    part that is not the sender. *)
Definition handleReadReceipt (h : WebSocketHandler) (conn : Connection)
    (msg : Message) : Outcome :=
  let nothing := {| out_conn := conn; out_calls := []; out_err := None |} in
  match readReceiptContent (Content msg) with
  | None => nothing
  | Some content =>
      if String.prefix "single_" (rr_ConversationID content) then
        let parts := string_drop 7 (rr_ConversationID content) in
        match last_index "_"%char parts with
        | Some i =>
            let user1 := string_take i parts in
            let user2 := string_drop (S i) parts in
            let targetUser :=
              if String.eqb user1 (UserID conn) then user2 else user1 in
            {| out_conn := conn;
               out_calls := [CallDispatchToUsers [targetUser] msg];
               out_err := DispatchToUsers_result (dispatcher h)
                            [targetUser] msg |}
        | None => nothing
        end
      else nothing
  end.

Definition handleTyping (h : WebSocketHandler) (conn : Connection)
    (msg : Message) : Outcome :=
  if String.eqb (To msg) "" then
    {| out_conn := conn; out_calls := []; out_err := None |}
  else
    {| out_conn := conn;
       out_calls := [CallDispatchToUsers [To msg] msg];
       out_err := DispatchToUsers_result (dispatcher h) [To msg] msg |}.

(** The first three statements of [handleMessage]: sender and timestamp are
    overwritten, an empty message ID is replaced by a generated one. *)
Definition stamp (env : Env) (conn : Connection) (msg : Message) : Message :=
  let msg := set_From msg (UserID conn) in
  let msg := set_Timestamp msg (nowMilli env) in
  if String.eqb (MessageID msg) "" then set_MessageID msg (freshID env)
  else msg.

(** The [switch msg.Type] of [handleMessage]. *)
Definition route (h : WebSocketHandler) (env : Env) (conn : Connection)
    (msg : Message) : Outcome :=
  let ty := Type_ msg in
  if (ty =? MsgHeartbeat)%Z then handleHeartbeat env conn
  else if (ty =? MsgSingleChat)%Z || (ty =? MsgText)%Z then
    handleSingleChat h env conn msg
  else if (ty =? MsgGroupChat)%Z then handleGroupChat h env conn msg
  else if (ty =? MsgAck)%Z then handleAck conn
  else if (ty =? MsgReadReceipt)%Z then handleReadReceipt h conn msg
  else if (ty =? MsgTyping)%Z then handleTyping h conn msg
  else
    match onMessage h with
    | Some hook =>
        {| out_conn := conn; out_calls := [CallOnMessage msg];
           out_err := hook conn msg |}
    | None => {| out_conn := conn; out_calls := []; out_err := None |}
    end.

(** [handleMessage]: stamp, deduplicate, dispatch by type.  The handler is
    returned with the deduper as the call left it. *)
Definition handleMessage (h : WebSocketHandler) (env : Env)
    (conn : Connection) (msg : Message) : WebSocketHandler * Outcome :=
  let msg := stamp env conn msg in
  let '(dup, d) := IsDuplicate (deduper h) (MessageID msg) (nowUnix env) in
  if dup then
    (set_deduper h d,
     {| out_conn := conn; out_calls := []; out_err := None |})
  else
    (set_deduper h d, route (set_deduper h d) env conn msg).

End Handler.

(* ===================================================================== *)
(** * Package gateway: the message dispatcher                             *)
(* ===================================================================== *)

(** The shared store as the dispatcher sees it: what [Get] answers for a key
    (a value, [redis.Nil] for a missing key, or another error) and the error
    [Publish] returns. *)
Inductive RedisReply :=
  | RVal (v : string)
  | RNil
  | RErr (e : error).

Record Redis := {
  redis_Get : string -> RedisReply;
  redis_Publish : string -> bytes -> option error
}.

(** The [Conn] interface of the dispatcher: the error [SendData] returns. *)
Record LocalConn := { SendData : bytes -> option error }.

Record DispatcherConfig := {
  dc_NodeID : string;
  OnlineKeyExpire : Z;
  PublishChannelPrefix : string;
  SubscribeChannelPrefix : string
}.

(** [OfflineMessageSaver]: the error [SaveOfflineMessage] returns. *)
Definition OfflineMessageSaver := string -> Message -> option error.

Record messageDispatcherImpl := {
  dconfig : DispatcherConfig;
  redis : Redis;
  localConns : gmap string LocalConn;
  offlineSaver : option OfflineMessageSaver
}.

(** What a dispatch does to the outside: a send on a local connection, a
    publish on a node channel, a call of the offline saver. *)
Inductive Effect :=
  | EffSendData (userID : string) (data : bytes)
  | EffPublish (channel : string) (data : bytes)
  | EffSaveOfflineMessage (userID : string) (m : Message).

Definition is_offline_save (e : Effect) : bool :=
  match e with
  | EffSaveOfflineMessage _ _ => true
  | _ => false
  end.

Definition onlineKey (userID : string) : string := "online:" +:+ userID.

Section Dispatcher.
Context `{GoLib}.

(** [pushToLocalUser]: [false] without a local connection or when its
    [SendData] fails. *)
Definition pushToLocalUser (d : messageDispatcherImpl) (userID : string)
    (data : bytes) : bool * list Effect :=
  match localConns d !! userID with
  | None => (false, [])
  | Some conn =>
      match SendData conn data with
      | Some _ => (false, [EffSendData userID data])
      | None => (true, [EffSendData userID data])
      end
  end.

(** [GetUserNode]: [redis.Nil] is answered by the empty node and no error. *)
Definition GetUserNode (d : messageDispatcherImpl) (userID : string)
    : string * option error :=
  match redis_Get (redis d) (onlineKey userID) with
  | RNil => ("", None)
  | RErr e => ("", Some e)
  | RVal val => (Sscanf_nodeID val, None)
  end.

Definition publishToNode (d : messageDispatcherImpl) (node targetUserID : string)
    (msg : Message) : list Effect * option error :=
  let channel := PublishChannelPrefix (dconfig d) +:+ node in
  let data := json_Marshal_route
                {| TargetUsers := [targetUserID]; RMessage := msg |} in
  ([EffPublish channel data], redis_Publish (redis d) channel data).

Definition wrap_err (prefix : string) (r : option error) : option error :=
  match r with
  | Some e => Some (EWrap prefix e)
  | None => None
  end.

(** The body of the goroutine started for one target: its effects and the
    error it puts on [errChan], if any. *)
Definition dispatch_one (d : messageDispatcherImpl) (data : bytes)
    (msg : Message) (uid : string) : list Effect * option error :=
  let '(ok, sent) := pushToLocalUser d uid data in
  if ok then (sent, None)
  else
    match GetUserNode d uid with
    | (_, Some err) =>
        (sent, Some (EWrap ("get user node error for " +:+ uid) err))
    | (node, None) =>
        if negb (String.eqb node "") && negb (String.eqb node (dc_NodeID (dconfig d)))
        then
          let '(effs, r) := publishToNode d node uid msg in
          ((sent ++ effs)%list, wrap_err "publish to node error" r)
        else
          match offlineSaver d with
          | Some saver =>
              ((sent ++ [EffSaveOfflineMessage uid msg])%list,
               wrap_err "save offline message error" (saver uid msg))
          | None => (sent, None)
          end
    end.

(** The end of [DispatchToUsers]: [nil] when no goroutine reported an
    error, the aggregate of the reported errors otherwise. *)
Definition collect_errors (errs : list error) : option error :=
  match errs with
  | [] => None
  | _ => Some (EDispatch errs)
  end.

(** [DispatchToUsers].  One goroutine runs per target and the caller waits
    for all of them; they share nothing but the read-only dispatcher, so the
    effects are listed target by target, in the order of [userIDs]. *)
Definition DispatchToUsers (d : messageDispatcherImpl) (userIDs : list string)
    (msg : Message) : list Effect * option error :=
  match userIDs with
  | [] => ([], None)
  | _ =>
      let data := json_Marshal msg in
      let rs := map (dispatch_one d data msg) userIDs in
      (concat (map fst rs), collect_errors (omap snd rs))
  end.

End Dispatcher.

(* ===================================================================== *)
(** * Sample data for the worked examples                                 *)
(* ===================================================================== *)

(** A rendering that stands in for [encoding/json] in the examples, and the
    scan up to the first colon. *)
Fixpoint until_colon (s : string) : string :=
  match s with
  | EmptyString => EmptyString
  | String a s' => if Ascii.eqb a ":"%char then EmptyString
                   else String a (until_colon s')
  end.

Definition example_lib : GoLib :=
  {| json_Marshal := fun m =>
       list_byte_of_string
         (MessageID m +:+ "|" +:+ From m +:+ "|" +:+ To m);
     json_Marshal_route := fun r =>
       list_byte_of_string
         (String.concat "," (TargetUsers r) +:+ "|" +:+ MessageID (RMessage r));
     Sscanf_nodeID := until_colon |}.

Definition ws0 : WSConn := {| wsCloseCalls := 0; wsCloseErr := None |}.

(** Two connections of user "alice", built as [HandleWebSocket] builds them,
    with the default configuration. *)
Definition alice1 : Connection :=
  NewConnection "conn-1" "alice" "node1" ws0 None 1000.

Definition alice2 : Connection :=
  SetDeviceID (NewConnection "conn-2" "alice" "node1" ws0 None 2000) "phone".

Definition hello : bytes := list_byte_of_string "hello".

(** [alice1] after 256 messages were queued and none was written out. *)
Definition alice1_full : Connection :=
  Nat.iter 256 (fun c => (SendMessage c hello).1) alice1.

Definition alice1_closed : Connection := (Close alice1).1.

(* ===================================================================== *)
(** * Vocabulary of the statements and further sample data               *)
(* ===================================================================== *)

(** The invariant that ties the two channels and the state to [closed]. *)
Definition conn_inv (c : Connection) : Prop :=
  chClosed (Send c) = closed c /\ closedCh c = closed c /\
  (closed c = true -> State c = StateClosed).

(** [n] further calls of [Close], with the error each returns. *)
Fixpoint Close_times (n : nat) (c : Connection)
    : Connection * list (option error) :=
  match n with
  | O => (c, [])
  | S n' =>
      let '(c1, r) := Close c in
      let '(c2, rs) := Close_times n' c1 in
      (c2, r :: rs)
  end.

(** A manager with nothing registered, [alice1_full] at address 1 and
    [alice2] at address 2. *)
Definition two_alices : World :=
  {| heap := fun a => if decide (a = 1%nat) then alice1_full else alice2;
     mgr := NewConnectionManager "node1" None;
     spawned := [] |}.

(** The same with the first connection fresh: open, its queue empty. *)
Definition two_fresh_alices : World :=
  {| heap := fun a => if decide (a = 1%nat) then alice1 else alice2;
     mgr := NewConnectionManager "node1" None;
     spawned := [] |}.

Definition no_redis : Redis :=
  {| redis_Get := fun _ => RNil; redis_Publish := fun _ _ => None |}.

Definition example_config : DispatcherConfig :=
  {| dc_NodeID := "node1"; OnlineKeyExpire := 3600 * second;
     PublishChannelPrefix := "im:node:"; SubscribeChannelPrefix := "im:node:" |}.

(** A dispatcher built with a [nil] offline saver, and one with a saver that
    always succeeds; neither has local connections or online records. *)
Definition dispatcher_without_saver : messageDispatcherImpl :=
  {| dconfig := example_config; redis := no_redis; localConns := ∅;
     offlineSaver := None |}.

Definition dispatcher_with_saver : messageDispatcherImpl :=
  {| dconfig := example_config; redis := no_redis; localConns := ∅;
     offlineSaver := Some (fun _ _ => None) |}.

Definition chat_to_bob : Message :=
  {| MessageID := "m-1"; Type_ := MsgSingleChat; From := "alice"; To := "bob";
     Content := CJSON (JObj [("text", JStr "hi")]); ContentRaw := "";
     Timestamp := 1000; ClientTimestamp := 0; QoS := 1;
     ConversationID := "single:alice:bob"; Seq := 0; Revoked := false;
     CreatedAt := 0 |}.

(** A handler that returns without a call and without a send. *)
Definition quiet (conn : Connection) : Outcome :=
  {| out_conn := conn; out_calls := []; out_err := None |}.

Definition is_save_call (c : Call) : bool :=
  match c with
  | CallSaveMessage _ => true
  | _ => false
  end.

Definition is_dispatch_call (c : Call) : bool :=
  match c with
  | CallDispatchToUsers _ _ | CallDispatchToConversation _ _ _ => true
  | _ => false
  end.

(** The message a call hands to the collaborator. *)
Definition call_msg (c : Call) : Message :=
  match c with
  | CallSaveMessage m => m
  | CallDispatchToUsers _ m => m
  | CallDispatchToConversation _ m _ => m
  | CallOnMessage m => m
  end.

(** The frame types that [handleMessage] sends to [handleSingleChat] or
    [handleGroupChat]. *)
Definition is_chat (ty : MessageType) : Prop :=
  ty = MsgSingleChat \/ ty = MsgText \/ ty = MsgGroupChat.

Definition ok_dispatcher : MessageDispatcher :=
  {| DispatchToUsers_result := fun _ _ => None;
     DispatchToConversation_result := fun _ _ _ => None |}.

(** The handler as [NewWebSocketHandler] builds it, with a saver. *)
Definition example_handler : WebSocketHandler :=
  {| dispatcher := ok_dispatcher; deduper := NewMessageDeduper 10000;
     messageSaver := Some (fun _ => None); onMessage := None |}.

Definition env_a : Env :=
  {| nowMilli := 1000000; nowUnix := 1000; freshID := "msg_1000_aa" |}.

Definition env_b : Env :=
  {| nowMilli := 1000500; nowUnix := 1000; freshID := "msg_1000_bb" |}.

Definition heartbeat_frame : Message :=
  {| MessageID := "hb-1"; Type_ := MsgHeartbeat; From := ""; To := "";
     Content := CJSON (JObj [("timestamp", JNum 999999)]); ContentRaw := "";
     Timestamp := 0; ClientTimestamp := 0; QoS := 0; ConversationID := "";
     Seq := 0; Revoked := false; CreatedAt := 0 |}.

(** A read receipt of "alice" for her conversation with "bob", its
    conversation ID being the one [handleSingleChat] assigns. *)
Definition receipt_frame : Message :=
  {| MessageID := "rr-1"; Type_ := MsgReadReceipt; From := "alice"; To := "";
     Content := CJSON (JObj [("conversation_id",
                              JStr (GetSingleChatConversationID "alice" "bob"));
                             ("last_read_seq", JNum 7)]);
     ContentRaw := ""; Timestamp := 0; ClientTimestamp := 0; QoS := 0;
     ConversationID := ""; Seq := 0; Revoked := false; CreatedAt := 0 |}.

Definition receipt_frame_underscore : Message :=
  {| MessageID := "rr-2"; Type_ := MsgReadReceipt; From := "alice"; To := "";
     Content := CJSON (JObj [("conversation_id",
                              JStr (GenerateConversationID 1 "alice" "bob"));
                             ("last_read_seq", JNum 7)]);
     ContentRaw := ""; Timestamp := 0; ClientTimestamp := 0; QoS := 0;
     ConversationID := ""; Seq := 0; Revoked := false; CreatedAt := 0 |}.

(** The ID under which a frame is deduplicated. *)
Definition effective_id (env : Env) (msg : Message) : string :=
  if String.eqb (MessageID msg) "" then freshID env else MessageID msg.

(* ===================================================================== *)
(** * Package gateway: the rest of ConnectionManager                      *)
(* ===================================================================== *)

Definition set_heap (w : World) (h : Heap) : World :=
  {| heap := h; mgr := mgr w; spawned := spawned w |}.

(** A method call [conn.M()] through a pointer: the object at [a] is replaced
    by what [M] makes of it. *)
Definition update_at (w : World) (a : addr) (f : Connection -> Connection)
    : World :=
  set_heap w (heap_set (heap w) a (f (heap w a))).

(** [sync.Map.Range] with a callback that always returns [true]: the keys
    present when the range starts are visited once each; a key deleted in
    the meantime is skipped, and the value handed to the callback is the one
    stored under the key when it is visited.  [cur] reads the map out of the
    state the callback works on.  Go leaves the order open; the model takes
    the order of [map_to_list]. *)
Definition Range_connections {S : Type} (cur : S -> gmap string addr)
    (f : string -> addr -> S -> S) (s : S) : S :=
  fold_left
    (fun s k => match cur s !! k with
                | Some a => f k a s
                | None => s
                end)
    (map_to_list (cur s)).*1 s.

(** [Broadcast]: [SendMessage] on every stored connection, its result
    discarded. *)
Definition Broadcast (w : World) (data : bytes) : World :=
  Range_connections (fun w => connections (mgr w))
    (fun _ a w => update_at w a (fun c => (SendMessage c data).1)) w.

(** [BroadcastToUsers]: the same for the listed users that have a
    connection. *)
Definition BroadcastToUsers (w : World) (userIDs : list string) (data : bytes)
    : World :=
  fold_left
    (fun w userID =>
       match GetConnection w userID with
       | Some a => update_at w a (fun c => (SendMessage c data).1)
       | None => w
       end)
    userIDs w.

(** [CloseAll]: [Close] on every stored connection; the maps are not
    touched. *)
Definition CloseAll (w : World) : World :=
  Range_connections (fun w => connections (mgr w))
    (fun _ a w => update_at w a (fun c => (Close c).1)) w.

(** [time.Time.Sub] saturates at the bounds of [Duration], an [int64]. *)
Definition sat64 (z : Z) : Z := Z.max (- 2 ^ 63) (Z.min (2 ^ 63 - 1) z).

(** The test of [CleanIdleConnections]:
    [now.Sub(conn.GetLastActive()) > idleTimeout]. *)
Definition idle (now idleTimeout : Z) (c : Connection) : bool :=
  sat64 (now - GetLastActive c) >? idleTimeout.

(** [CleanIdleConnections]: every visited connection that is idle is
    unregistered and closed; the result is the number of those. *)
Definition CleanIdleConnections (w : World) (now idleTimeout : Z) : World * Z :=
  Range_connections (fun s : World * Z => connections (mgr s.1))
    (fun _ a s =>
       if idle now idleTimeout (heap s.1 a)
       then (update_at (Unregister s.1 a) a (fun c => (Close c).1), s.2 + 1)
       else s)
    (w, 0).

(** The deferred function of [readPump], run when the read loop ends:
    [h.connMgr.Unregister(conn); conn.Close()]. *)
Definition readPump_exit (w : World) (a : addr) : World :=
  update_at (Unregister w a) a (fun c => (Close c).1).

(** The registry holds a connection under its own user ID and its own
    connection ID. *)
Definition reg_inv (w : World) : Prop :=
  (forall u a, connections (mgr w) !! u = Some a -> UserID (heap w a) = u) /\
  (forall i a, connByID (mgr w) !! i = Some a -> ID (heap w a) = i).

(** A world with nothing registered. *)
Definition empty_world (h : Heap) : World :=
  {| heap := h; mgr := NewConnectionManager "node1" None; spawned := [] |}.

(** What [CleanIdleConnections] does at one key of its range. *)
Definition clean_step (now idleTimeout : Z) (s : World * Z) (k : string)
    : World * Z :=
  match connections (mgr s.1) !! k with
  | Some a =>
      if idle now idleTimeout (heap s.1 a)
      then (update_at (Unregister s.1 a) a (fun c => (Close c).1), s.2 + 1)
      else s
  | None => s
  end.

(** A connection of "alice" registered alone at address 1. *)
Definition alice_registered : World :=
  store_new (empty_world (fun _ => alice1)) 1%nat.

(* ===================================================================== *)
(** * Package gateway: the rest of MessageDeduper                         *)
(* ===================================================================== *)

(** The test of [cleanup]: [now-v > expireTime] on [int64], with
    [expireTime] 300 seconds. *)
Definition expired (now v : Z) : bool := wrap64 (now - v) >? 300.

(** One tick of [cleanup]: the loop over the cache that deletes every entry
    it finds expired.  Deleting the entry under visit is allowed during a
    [range]; each entry is visited once. *)
Definition cleanup_tick (d : MessageDeduper) (now : Z) : MessageDeduper :=
  {| cache := fold_left
                (fun c kv => if expired now kv.2 then delete kv.1 c else c)
                (map_to_list (cache d)) (cache d);
     dsize := dsize d |}.

(** A deduper that saw two IDs, at seconds 100 and 350. *)
Definition deduper_two : MessageDeduper :=
  (IsDuplicate (IsDuplicate (NewMessageDeduper 10000) "m1" 100).2 "m2" 350).2.




(* ===================================================================== *)
(** * Package gateway: the read loop and the origin check                 *)
(* ===================================================================== *)

Record HandlerConfig := {
  hc_NodeID : string;
  hc_MaxMessageSize : Z;
  hc_PingInterval : Z;
  hc_PongTimeout : Z;
  hc_WriteTimeout : Z;
  hc_ReadTimeout : Z;
  hc_HandshakeTimeout : Z;
  AllowOrigins : list string
}.

(** [checkOrigin]; [origin] is [r.Header.Get("Origin")]. *)
Definition checkOrigin (config : HandlerConfig) (origin : string) : bool :=
  if (length (AllowOrigins config) =? 0)%nat then true
  else if String.eqb origin "" then true
  else existsb (fun allowed => String.eqb allowed "*" || String.eqb allowed origin)
         (AllowOrigins config).

(** [err.Error()]: the message of a [ConnectionError], the text of an
    external error, and the formats of the two [fmt.Errorf] shapes
    (["...: %w"] and ["dispatch errors: %v"] on a slice of errors). *)
Fixpoint Error (e : error) : string :=
  match e with
  | EConn c => ErrMessage c
  | EExternal what => what
  | EWrap prefix e' => prefix +:+ ": " +:+ Error e'
  | EDispatch errs =>
      "dispatch errors: [" +:+ String.concat " " (map Error errs) +:+ "]"
  end.

(** The frame built by [sendError]. *)
Definition errorFrame (code message : string) (now : Z) : Message :=
  mkMessage MsgSystem (CStringMap [("error", code); ("message", message)]) now.

Section ReadLoop.
Context `{GoLib}.

(** [sendError]: the result of [SendJSON] is discarded. *)
Definition sendError (conn : Connection) (code message : string) (now : Z)
    : Connection :=
  (SendJSON conn (errorFrame code message now)).1.

(** The body of the loop of [readPump] for one frame that was read:
    [parsed] is what [json.Unmarshal] made of the frame, [None] when it
    failed; [nowT] is the clock reading of [UpdateLastActive].  The result is
    the handler, the connection and the calls made.  The read deadline that
    the loop sets on the transport is not part of [Connection] and is left
    out. *)
Definition readFrame (h : WebSocketHandler) (env : Env) (nowT : Z)
    (conn : Connection) (parsed : option Message)
    : WebSocketHandler * Connection * list Call :=
  let conn := UpdateLastActive conn nowT in
  match parsed with
  | None =>
      (h, sendError conn "invalid_message" "Invalid message format"
            (nowMilli env), [])
  | Some msg =>
      let '(h', o) := handleMessage h env conn msg in
      match out_err o with
      | Some err =>
          (h', sendError (out_conn o) "handle_error" (Error err) (nowMilli env),
           out_calls o)
      | None => (h', out_conn o, out_calls o)
      end
  end.

End ReadLoop.

(** Whether a character occurs in a string. *)
Fixpoint has_char (c : ascii) (s : string) : bool :=
  match s with
  | EmptyString => false
  | String a s' => Ascii.eqb a c || has_char c s'
  end.

(* ===================================================================== *)
(** * Package gateway: the rest of the dispatcher                         *)
(* ===================================================================== *)

Definition set_localConns (d : messageDispatcherImpl)
    (m : gmap string LocalConn) : messageDispatcherImpl :=
  {| dconfig := dconfig d; redis := redis d; localConns := m;
     offlineSaver := offlineSaver d |}.

(** The commands that [RegisterConnection] and [UnregisterConnection] send
    to the shared store. *)
Inductive StoreCmd :=
  | CmdSetEX (key value : string) (expire : Z)
  | CmdDel (key : string).

(** [fmt.Sprintf("%d", n)]. *)
Definition Sprintf_d (n : Z) : string := NilZero.string_of_int (Z.to_int n).

(** [RegisterConnection]: the local table is written first, then the online
    record is set with its expiry; [res] is the error the store returns for
    the command, and it is what the function returns. *)
Definition RegisterConnection (d : messageDispatcherImpl) (userID : string)
    (conn : LocalConn) (now : Z) (res : option error)
    : messageDispatcherImpl * StoreCmd * option error :=
  (set_localConns d (<[userID := conn]> (localConns d)),
   CmdSetEX (onlineKey userID)
     (dc_NodeID (dconfig d) +:+ ":" +:+ Sprintf_d now)
     (OnlineKeyExpire (dconfig d)),
   res).

(** [UnregisterConnection]. *)
Definition UnregisterConnection (d : messageDispatcherImpl) (userID : string)
    (res : option error) : messageDispatcherImpl * StoreCmd * option error :=
  (set_localConns d (delete userID (localConns d)),
   CmdDel (onlineKey userID), res).

(** The members of a group come from the [groupMemberGetter] of the
    dispatcher when it has one, from the set ["group:members:<id>"] of the
    shared store otherwise; each is given by the list and the error it
    returns. *)
Record GroupSource := {
  groupMemberGetter : option (string -> list string * option error);
  redis_SMembers : string -> list string * option error
}.

(** The group a conversation ID names in [DispatchToConversation]: the part
    after ["group:"], or the whole ID when it starts with ["group_"]; the
    empty string when it names none. *)
Definition conversation_groupID (conversationID : string) : string :=
  if (6 <? String.length conversationID)%nat
     && String.eqb (string_take 6 conversationID) "group:"
  then string_drop 6 conversationID
  else if (6 <? String.length conversationID)%nat
          && String.eqb (string_take 6 conversationID) "group_"
  then conversationID
  else "".

(** The lookup of the members, with the error [DispatchToConversation]
    returns at once when the lookup fails. *)
Definition group_members (gs : GroupSource) (groupID : string)
    : list string * option error :=
  match groupMemberGetter gs with
  | Some getter =>
      match getter groupID with
      | (_, Some err) => ([], Some (EWrap "get group members error" err))
      | (memberIDs, None) => (memberIDs, None)
      end
  | None =>
      match redis_SMembers gs ("group:members:" +:+ groupID) with
      | (_, Some err) =>
          ([], Some (EWrap "get group members from redis error" err))
      | (members, None) => (members, None)
      end
  end.

(** The two users of a conversation ID that starts with ["single_"], split
    at the last underscore of the rest. *)
Definition single_targets (conversationID : string) (found : list string)
    : list string :=
  if (7 <? String.length conversationID)%nat
     && String.eqb (string_take 7 conversationID) "single_"
  then
    let parts := string_drop 7 conversationID in
    match last_index "_"%char parts with
    | Some i => [string_take i parts; string_drop (S i) parts]
    | None => found
    end
  else found.

(** [filtered]: the targets without [excludeUserID], when that is set. *)
Definition exclude_user (excludeUserID : string) (targetUserIDs : list string)
    : list string :=
  if String.eqb excludeUserID "" then targetUserIDs
  else List.filter (fun uid => negb (String.eqb uid excludeUserID))
         targetUserIDs.

Section DispatcherRest.
Context `{GoLib}.

(** [DispatchToConversation]. *)
Definition DispatchToConversation (d : messageDispatcherImpl)
    (gs : GroupSource) (conversationID : string) (msg : Message)
    (excludeUserID : string) : list Effect * option error :=
  let groupID := conversation_groupID conversationID in
  let '(targetUserIDs, err) :=
    if String.eqb groupID "" then ([], None) else group_members gs groupID in
  match err with
  | Some e => ([], Some e)
  | None =>
      let targetUserIDs := single_targets conversationID targetUserIDs in
      DispatchToUsers d (exclude_user excludeUserID targetUserIDs) msg
  end.

(** [handleRouteMessage]: every target of the envelope is offered to
    [pushToLocalUser]. *)
Definition handleRouteMessage (d : messageDispatcherImpl)
    (routeMsg : RouteMessage) : list Effect :=
  let data := json_Marshal (RMessage routeMsg) in
  concat (map (fun userID => (pushToLocalUser d userID data).2)
            (TargetUsers routeMsg)).

(** [SendDirectMessage]. *)
Definition SendDirectMessage (d : messageDispatcherImpl) (userID : string)
    (msg : Message) : list Effect * option error :=
  let '(ok, effs) := pushToLocalUser d userID (json_Marshal msg) in
  (effs,
   if ok then None
   else Some (EExternal ("user " +:+ userID +:+ " not connected to this node"))).

End DispatcherRest.

(** A local connection whose [SendData] succeeds, one whose [SendData]
    fails, and a dispatcher on node "node1" with the first for "lea", the
    second for "sam", a record of node "node2" for "rio", a record of
    "node1" itself for "kim", a store that fails for "zed", and a saver. *)
Definition conn_ok : LocalConn := {| SendData := fun _ => None |}.

Definition conn_full : LocalConn :=
  {| SendData := fun _ => Some (EConn ErrSendBufferFull) |}.

Definition mixed_dispatcher : messageDispatcherImpl :=
  {| dconfig := example_config;
     redis := {| redis_Get := fun k =>
                   if String.eqb k "online:rio" then RVal "node2:1700000000"
                   else if String.eqb k "online:kim"
                   then RVal "node1:1700000000"
                   else if String.eqb k "online:zed"
                   then RErr (EExternal "connection refused")
                   else RNil;
                 redis_Publish := fun _ _ => None |};
     localConns := <["lea" := conn_ok]> (<["sam" := conn_full]> ∅);
     offlineSaver := Some (fun _ _ => None) |}.

Definition example_getter (g : string) : list string * option error :=
  if String.eqb g "group_42" then (["alice"; "bob"; "carol"], None)
  else ([], None).

Definition example_groups : GroupSource :=
  {| groupMemberGetter := Some example_getter;
     redis_SMembers := fun _ => ([], None) |}.


(* ===================================================================== *)
(** * Package gateway: the write loop                                     *)
(* ===================================================================== *)

(** What [writePump] hands to the transport with [WriteMessage]. *)
Inductive Frame :=
  | TextMessage (data : bytes)
  | PingMessage
  | CloseMessage.

(** The receive [data, ok := <-ch]: the head of the buffer while there is
    one, also on a closed channel; [ok = false], here [None], on a closed
    channel that is drained; not ready on an open channel that is empty. *)
Definition chan_recv (ch : Chan) : option (option bytes * Chan) :=
  match buf ch with
  | data :: rest =>
      Some (Some data, {| buf := rest; cap := cap ch; chClosed := chClosed ch |})
  | [] => if chClosed ch then Some (None, ch) else None
  end.

(** The write loop of one connection: the connection, the frames that the
    transport took, in order, and whether the loop is still running. *)
Record Pump := { pconn : Connection; wire : list Frame; running : bool }.

(** The deferred function of [writePump]: [ticker.Stop(); conn.Close()]. *)
Definition writePump_exit (c : Connection) (out : list Frame) : Pump :=
  {| pconn := (Close c).1; wire := out; running := false |}.

(** One iteration of the loop of [writePump].  The [select] takes any case
    that is ready; [WriteMessage] succeeds or fails as the transport
    decides, so both outcomes are steps.  A text frame whose write fails
    has left the queue and is not on the wire.  The result of the write of
    the close frame is ignored by the code; [sent] tells whether the
    transport took it. *)
Inductive writePump_step : Pump -> Pump -> Prop :=
  | wp_text (p : Pump) (data : bytes) (ch : Chan) :
      running p = true ->
      chan_recv (Send (pconn p)) = Some (Some data, ch) ->
      writePump_step p
        {| pconn := set_Send (pconn p) ch;
           wire := wire p ++ [TextMessage data]; running := true |}
  | wp_text_error (p : Pump) (data : bytes) (ch : Chan) :
      running p = true ->
      chan_recv (Send (pconn p)) = Some (Some data, ch) ->
      writePump_step p (writePump_exit (set_Send (pconn p) ch) (wire p))
  | wp_send_closed (p : Pump) (ch : Chan) (sent : bool) :
      running p = true ->
      chan_recv (Send (pconn p)) = Some (None, ch) ->
      writePump_step p
        (writePump_exit (pconn p)
           (wire p ++ if sent then [CloseMessage] else []))
  | wp_ping (p : Pump) :
      running p = true ->
      writePump_step p
        {| pconn := pconn p; wire := wire p ++ [PingMessage];
           running := true |}
  | wp_ping_error (p : Pump) :
      running p = true ->
      writePump_step p (writePump_exit (pconn p) (wire p))
  | wp_done (p : Pump) :
      running p = true ->
      Done (pconn p) = true ->
      writePump_step p (writePump_exit (pconn p) (wire p)).

(** The write loop together with the other goroutines that hold the
    connection: [log] lists the data of the [SendMessage] calls that
    returned [nil], in the order of the calls. *)
Record Outbound := { pump : Pump; log : list bytes }.

Definition with_conn (s : Outbound) (c : Connection) : Pump :=
  {| pconn := c; wire := wire (pump s); running := running (pump s) |}.

Inductive outbound_step : Outbound -> Outbound -> Prop :=
  | ob_pump (s : Outbound) (p' : Pump) :
      writePump_step (pump s) p' ->
      outbound_step s {| pump := p'; log := log s |}
  | ob_SendMessage (s : Outbound) (data : bytes) :
      outbound_step s
        {| pump := with_conn s (SendMessage (pconn (pump s)) data).1;
           log := log s ++ match (SendMessage (pconn (pump s)) data).2 with
                           | None => [data]
                           | Some _ => []
                           end |}
  | ob_Close (s : Outbound) :
      outbound_step s
        {| pump := with_conn s (Close (pconn (pump s))).1; log := log s |}
  | ob_UpdateLastActive (s : Outbound) (now : Z) :
      outbound_step s
        {| pump := with_conn s (UpdateLastActive (pconn (pump s)) now);
           log := log s |}.

(** The data of the text frames on the wire. *)
Definition texts (out : list Frame) : list bytes :=
  omap (fun f => match f with TextMessage data => Some data | _ => None end)
    out.

(** The start: the loop running on a connection, with what its queue holds
    counted as accepted. *)
Definition outbound_start (c : Connection) : Outbound :=
  {| pump := {| pconn := c; wire := []; running := true |};
     log := buf (Send c) |}.

(** What every reachable state satisfies: the accepted data are the text
    frames on the wire, then at most one item that a failed write took
    from the queue, then the queue; nothing is lost while the loop runs,
    and a loop that has returned leaves the connection closed. *)
Definition outbound_inv (s : Outbound) : Prop :=
  exists lost : list bytes,
    log s = texts (wire (pump s)) ++ lost ++ buf (Send (pconn (pump s))) /\
    (length lost <= 1)%nat /\
    (running (pump s) = true -> lost = []) /\
    (running (pump s) = false -> closed (pconn (pump s)) = true).

(** The state after one accepted [SendMessage] on the fresh connection
    [alice1] and one iteration of the loop that wrote the item. *)
Definition wrote_hello : Outbound :=
  {| pump := {| pconn := alice1; wire := [TextMessage hello];
                running := true |};
     log := [hello] |}.

Section DispatcherBroadcast.
Context `{GoLib}.

(** [BroadcastToAll]: one [SendData] for every entry of the local table, a
    failure only logged; the entries are visited in the order of
    [map_to_list] (Go leaves the order open). *)
Definition BroadcastToAll (d : messageDispatcherImpl) (msg : Message)
    : list Effect * option error :=
  (map (fun kv : string * LocalConn => EffSendData kv.1 (json_Marshal msg))
     (map_to_list (localConns d)),
   None).

(** [BroadcastToAllNodes]: the local broadcast, then one publish for every
    node of the set ["im:nodes"] other than this one, a failed publish only
    logged; [nodes] is what [SMembers] returns for the set. *)
Definition BroadcastToAllNodes (d : messageDispatcherImpl)
    (nodes : list string * option error) (msg : Message)
    : list Effect * option error :=
  let local := (BroadcastToAll d msg).1 in
  match nodes with
  | (_, Some err) => (local, Some (EWrap "get nodes error" err))
  | (nodes, None) =>
      let data :=
        json_Marshal_route {| TargetUsers := ["*"]; RMessage := msg |} in
      ((local ++
        map (fun nodeID =>
               EffPublish (PublishChannelPrefix (dconfig d) +:+ nodeID) data)
          (List.filter
             (fun nodeID => negb (String.eqb nodeID (dc_NodeID (dconfig d))))
             nodes))%list,
       None)
  end.

End DispatcherBroadcast.

(* ===================================================================== *)
(** * Conversation identity                                               *)
(* ===================================================================== *)

Lemma ltb_asym (a b : string) :
  String.ltb a b = true -> String.ltb b a = false.
Proof.
  unfold String.ltb. rewrite (String.compare_antisym b a).
  destruct (String.compare a b); simpl; congruence.
Qed.

Lemma ltb_total (a b : string) :
  String.ltb a b = false -> String.ltb b a = false -> a = b.
Proof.
  unfold String.ltb. rewrite (String.compare_antisym b a).
  destruct (String.compare a b) eqn:E; simpl; try congruence.
  intros _ _. by apply String.compare_eq_iff.
Qed.

Example conversation_id_alice_bob :
  GetSingleChatConversationID "bob" "alice" = "single:alice:bob".
Proof. reflexivity. Qed.

(** C9.  The single-chat conversation identity does not depend on the order
    of the two user IDs: for all [a] and [b],
    [GetSingleChatConversationID a b = GetSingleChatConversationID b a]. *)
Theorem GetSingleChatConversationID_symmetric (a b : string) :
  GetSingleChatConversationID a b = GetSingleChatConversationID b a.
Proof.
  unfold GetSingleChatConversationID.
  destruct (String.ltb a b) eqn:Hab.
  - by rewrite (ltb_asym _ _ Hab).
  - destruct (String.ltb b a) eqn:Hba; [done|].
    by rewrite (ltb_total _ _ Hab Hba).
Qed.

(* ===================================================================== *)
(** * Connection: Send and Close                                          *)
(* ===================================================================== *)

Lemma NewConnection_inv id uid node t cfg now :
  conn_inv (NewConnection id uid node t cfg now).
Proof. repeat split; simpl; congruence. Qed.

Lemma Close_inv c : conn_inv c -> conn_inv (Close c).1.
Proof.
  unfold Close. destruct (closed c) eqn:E; [done|].
  intros _. repeat split; reflexivity.
Qed.

Lemma SendMessage_inv c data : conn_inv c -> conn_inv (SendMessage c data).1.
Proof.
  unfold SendMessage, chan_try_send. destruct (closed c) eqn:E; [done|].
  destruct (_ <? _)%nat; [|done].
  intros (H1 & H2 & H3). unfold conn_inv. simpl. by rewrite E in *.
Qed.

Lemma UpdateLastActive_inv c now :
  conn_inv c -> conn_inv (UpdateLastActive c now).
Proof. done. Qed.

Lemma SetPlatform_inv c platform : conn_inv c -> conn_inv (SetPlatform c platform).
Proof. done. Qed.

Lemma SetDeviceID_inv c deviceID : conn_inv c -> conn_inv (SetDeviceID c deviceID).
Proof. done. Qed.

Lemma Close_closed c : closed (Close c).1 = true.
Proof. unfold Close. by destruct (closed c) eqn:E. Qed.

Lemma SendMessage_closed c data :
  closed c = true -> SendMessage c data = (c, Some (EConn ErrConnectionClosed)).
Proof. unfold SendMessage. by intros ->. Qed.

Lemma SendMessage_full c data :
  closed c = false -> (cap (Send c) <= length (buf (Send c)))%nat ->
  SendMessage c data = (c, Some (EConn ErrSendBufferFull)).
Proof.
  unfold SendMessage, chan_try_send. intros -> Hfull.
  destruct (Nat.ltb_spec (length (buf (Send c))) (cap (Send c))); [lia|done].
Qed.

Lemma SendMessage_room c data :
  closed c = false -> (length (buf (Send c)) < cap (Send c))%nat ->
  SendMessage c data =
    (set_Send c {| buf := buf (Send c) ++ [data]; cap := cap (Send c);
                   chClosed := chClosed (Send c) |}, None).
Proof.
  unfold SendMessage, chan_try_send. intros -> Hroom.
  destruct (Nat.ltb_spec (length (buf (Send c))) (cap (Send c))); [done|lia].
Qed.

(** [SendMessage] never changes anything but the queue. *)
Lemma SendMessage_fields c data :
  let c' := (SendMessage c data).1 in
  ID c' = ID c /\ UserID c' = UserID c /\ closed c' = closed c /\
  State c' = State c /\ Conn c' = Conn c /\ DeviceID c' = DeviceID c.
Proof.
  unfold SendMessage. destruct (closed c) eqn:E; [done|].
  destruct (chan_try_send _ _); simpl; by rewrite ?E.
Qed.

Lemma Close_fields c :
  let c' := (Close c).1 in
  ID c' = ID c /\ UserID c' = UserID c /\ buf (Send c') = buf (Send c) /\
  DeviceID c' = DeviceID c.
Proof. unfold Close. by destruct (closed c) eqn:E. Qed.

(** C6.  [SendMessage] on a closed connection returns [ErrConnectionClosed];
    on an open connection whose queue holds as many items as its capacity it
    returns [ErrSendBufferFull]; in both cases the connection, and so every
    queued item, is left as it was.  The call always returns: its result is
    one of these two errors or [nil] after the item was appended to the
    queue, and it never waits for room. *)
Theorem SendMessage_nonblocking (c : Connection) (data : bytes) :
  (closed c = true ->
     SendMessage c data = (c, Some (EConn ErrConnectionClosed))) /\
  (closed c = false -> (cap (Send c) <= length (buf (Send c)))%nat ->
     SendMessage c data = (c, Some (EConn ErrSendBufferFull))) /\
  (SendMessage c data = (c, Some (EConn ErrConnectionClosed)) \/
   SendMessage c data = (c, Some (EConn ErrSendBufferFull)) \/
   ((SendMessage c data).2 = None /\
    closed c = false /\ (length (buf (Send c)) < cap (Send c))%nat /\
    buf (Send (SendMessage c data).1) = buf (Send c) ++ [data])).
Proof.
  split; [apply SendMessage_closed|].
  split; [apply SendMessage_full|].
  destruct (closed c) eqn:E.
  - left. by apply SendMessage_closed.
  - destruct (Nat.ltb_spec (length (buf (Send c))) (cap (Send c))).
    + right; right. by rewrite SendMessage_room.
    + right; left. by apply SendMessage_full.
Qed.

Lemma SendMessage_nonblocking_witness :
  SendMessage alice1_closed hello
    = (alice1_closed, Some (EConn ErrConnectionClosed)) /\
  SendMessage alice1_full hello
    = (alice1_full, Some (EConn ErrSendBufferFull)).
Proof.
  split.
  - apply (proj1 (SendMessage_nonblocking alice1_closed hello)). reflexivity.
  - apply (proj1 (proj2 (SendMessage_nonblocking alice1_full hello)));
      [vm_compute; reflexivity | vm_compute; lia].
Defined.

Lemma Close_open c :
  closed c = false ->
  Close c = (set_Conn (mark_closed c) (ws_Close (Conn c)).1,
             wsCloseErr (Conn c)).
Proof. unfold Close. by intros ->. Qed.

Lemma Close_again c : closed c = true -> Close c = (c, None).
Proof. unfold Close. by intros ->. Qed.

Lemma Close_times_closed n c :
  closed c = true -> Close_times n c = (c, repeat None n).
Proof.
  intros Hc. induction n as [|n IH]; [done|].
  simpl. rewrite (Close_again _ Hc), IH. done.
Qed.

(** C7.  On a connection that is not yet closed, the first [Close] makes the
    one transition to [StateClosed], closes the done channel and the
    outbound queue, calls the transport's [Close] once and returns its
    result; every later [Close], however many follow, leaves the connection
    exactly as it is and returns [nil]. *)
Theorem Close_idempotent (c : Connection) (n : nat) :
  closed c = false ->
  let c1 := (Close c).1 in
  closed c1 = true /\ State c1 = StateClosed /\
  chClosed (Send c1) = true /\ closedCh c1 = true /\
  wsCloseCalls (Conn c1) = S (wsCloseCalls (Conn c)) /\
  (Close c).2 = wsCloseErr (Conn c) /\
  Close c1 = (c1, None) /\
  Close_times n c1 = (c1, repeat None n).
Proof.
  intros Hc c1. subst c1. rewrite (Close_open c Hc). simpl.
  repeat split; try done.
  by apply Close_times_closed.
Qed.

Lemma Close_idempotent_witness :
  closed alice1 = false /\
  Close_times 3 (Close alice1).1 = ((Close alice1).1, [None; None; None]).
Proof.
  split; [reflexivity|].
  apply (Close_idempotent alice1 3). reflexivity.
Defined.

(** C4, as stated, fails: [UpdateLastActive], [SetPlatform] and
    [SetDeviceID] on a closed connection still change it. *)
Lemma closed_connection_still_mutable :
  closed alice1_closed = true /\ State alice1_closed = StateClosed /\
  UpdateLastActive alice1_closed 5000 <> alice1_closed /\
  LastActive (UpdateLastActive alice1_closed 5000) = 5000 /\
  SetPlatform alice1_closed "ios" <> alice1_closed /\
  SetDeviceID alice1_closed "tablet" <> alice1_closed.
Proof. repeat split; discriminate. Qed.

(** C4, amended.  Once a connection is closed, [SendMessage] returns
    [ErrConnectionClosed] and a further [Close] returns [nil], both leaving
    the connection, its state and its queue untouched; [UpdateLastActive],
    [SetPlatform] and [SetDeviceID] have no closed test: they keep the closed
    flag, the state and the queue, and still overwrite the activity timestamp
    and the tags. *)
Theorem closed_connection_guards (c : Connection) (data : bytes) (now : Z)
    (platform deviceID : string) :
  closed c = true ->
  SendMessage c data = (c, Some (EConn ErrConnectionClosed)) /\
  Close c = (c, None) /\
  (let c' := UpdateLastActive c now in
   closed c' = true /\ State c' = State c /\ Send c' = Send c /\
   LastActive c' = now) /\
  (let c' := SetPlatform c platform in
   closed c' = true /\ State c' = State c /\ Send c' = Send c /\
   Platform c' = platform) /\
  (let c' := SetDeviceID c deviceID in
   closed c' = true /\ State c' = State c /\ Send c' = Send c /\
   DeviceID c' = deviceID).
Proof.
  intros Hc. split; [by apply SendMessage_closed|].
  split; [by apply Close_again|]. simpl. by rewrite Hc.
Qed.

Lemma closed_connection_guards_witness :
  closed alice1_closed = true /\
  SendMessage alice1_closed hello
    = (alice1_closed, Some (EConn ErrConnectionClosed)).
Proof.
  split; [reflexivity|].
  apply (closed_connection_guards alice1_closed hello 5000 "ios" "tablet").
  reflexivity.
Defined.

(* ===================================================================== *)
(** * ConnectionManager.Register                                          *)
(* ===================================================================== *)

Section RegisterFacts.
Context `{GoLib}.

Lemma heap_set_eq h a c : heap_set h a c a = c.
Proof. unfold heap_set. by rewrite decide_True. Qed.

Lemma heap_set_ne h a c x : x <> a -> heap_set h a c x = h x.
Proof. unfold heap_set. intros. by rewrite decide_False. Qed.

(** Sending the notice and closing keep the identity of a connection. *)
Lemma kicked_fields c m :
  let c' := (Close (SendJSON c m).1).1 in
  ID c' = ID c /\ UserID c' = UserID c /\ DeviceID c' = DeviceID c.
Proof.
  unfold SendJSON. simpl.
  destruct (Close_fields (SendMessage c (json_Marshal m)).1) as (H1 & H2 & _ & H4).
  destruct (SendMessage_fields c (json_Marshal m)) as (G1 & G2 & _ & _ & _ & G6).
  simpl in *. rewrite H1, H2, H4. done.
Qed.

Lemma evict_old_fields w a now x :
  let c' := heap (evict_old w a now) x in
  ID c' = ID (heap w x) /\ UserID c' = UserID (heap w x) /\
  DeviceID c' = DeviceID (heap w x).
Proof.
  unfold evict_old. destruct (connections (mgr w) !! _) as [old|]; [|done].
  simpl. destruct (decide (x = old)) as [->|Hne].
  - rewrite heap_set_eq. apply kicked_fields.
  - by rewrite heap_set_ne.
Qed.

Lemma Register_fields w a now x :
  let c' := heap (Register w a now) x in
  ID c' = ID (heap w x) /\ UserID c' = UserID (heap w x) /\
  DeviceID c' = DeviceID (heap w x).
Proof. unfold Register, store_new. simpl. apply evict_old_fields. Qed.

(** After [Register], the user's slot holds the registered connection. *)
Lemma Register_lookup w a now :
  connections (mgr (Register w a now)) !! UserID (heap w a) = Some a /\
  connByID (mgr (Register w a now)) !! ID (heap w a) = Some a.
Proof.
  unfold Register, store_new. simpl.
  destruct (evict_old_fields w a now a) as (H1 & H2 & _).
  simpl in *. rewrite H1, H2. by rewrite !lookup_insert_eq.
Qed.

(** What [evict_old] does when the user's slot is taken. *)
Lemma evict_old_loaded w a now old :
  connections (mgr w) !! UserID (heap w a) = Some old ->
  let w' := evict_old w a now in
  let c' := (Close (SendJSON (heap w old) (kickMsg (DeviceID (heap w a)) now)).1).1 in
  heap w' old = c' /\
  (forall x, x <> old -> heap w' x = heap w x) /\
  connections (mgr w') = delete (UserID (heap w a)) (connections (mgr w)) /\
  connByID (mgr w') = delete (ID (heap w old)) (connByID (mgr w)).
Proof.
  intros Hold. unfold evict_old. rewrite Hold. simpl.
  split; [by rewrite heap_set_eq|].
  split; [intros x Hx; by rewrite heap_set_ne|].
  split; [done|].
  by destruct (kicked_fields (heap w old) (kickMsg (DeviceID (heap w a)) now)) as (-> & _).
Qed.

End RegisterFacts.

(** C1, as stated, fails: the notice goes through the non-blocking
    [SendJSON], whose error [Register] discards.  Here the first connection
    of "alice" has a full queue when the second one registers: the send
    fails with [ErrSendBufferFull], the first connection is closed, and its
    queue holds no notice, only the 256 items that were already waiting. *)
Lemma Register_notice_dropped :
  let w1 := @Register example_lib two_alices 1%nat 1500 in
  let w2 := @Register example_lib w1 2%nat 2000 in
  UserID (heap two_alices 1%nat) = UserID (heap two_alices 2%nat) /\
  connections (mgr w1) !! "alice" = Some 1%nat /\
  closed (heap w1 1%nat) = false /\
  (@SendJSON example_lib (heap w1 1%nat) (kickMsg "phone" 2000)).2
    = Some (EConn ErrSendBufferFull) /\
  connections (mgr w2) !! "alice" = Some 2%nat /\
  closed (heap w2 1%nat) = true /\
  buf (Send (heap w2 1%nat)) = repeat hello 256 /\
  ~ In (@json_Marshal example_lib (kickMsg "phone" 2000))
       (buf (Send (heap w2 1%nat))).
Proof.
  repeat split; try (vm_compute; reflexivity).
  assert (E : buf (Send (heap (@Register example_lib
                (@Register example_lib two_alices 1%nat 1500) 2%nat 2000) 1%nat))
              = repeat hello 256) by (vm_compute; reflexivity).
  intros Hin. cbv zeta in Hin. rewrite E in Hin.
  apply repeat_spec in Hin. vm_compute in Hin. discriminate Hin.
Qed.

(** With room in the queue of the first connection, the notice is its last
    queued item when the connection is closed. *)
Example Register_notice_queued :
  let w1 := @Register example_lib two_fresh_alices 1%nat 1500 in
  let w2 := @Register example_lib w1 2%nat 2000 in
  connections (mgr w2) !! "alice" = Some 2%nat /\
  connByID (mgr w2) !! "conn-1" = None /\
  connByID (mgr w2) !! "conn-2" = Some 2%nat /\
  closed (heap w2 1%nat) = true /\
  closed (heap w2 2%nat) = false /\
  buf (Send (heap w2 1%nat))
    = [@json_Marshal example_lib (kickMsg "phone" 2000)] /\
  totalConnections (mgr w2) = 2 /\ activeUsers (mgr w2) = 1.
Proof. vm_compute. repeat split; reflexivity. Qed.

Section RegisterTwice.
Context `{GoLib}.

(** C1, amended.  When two distinct connections of one user are registered
    one after the other, the second [Register] first takes the first
    connection out of the user's slot, passes it the kick-out notice through
    [SendJSON] (queued when that connection is open and its queue has room,
    dropped when it is closed or its queue is full), closes it and deletes
    its entry by connection ID; only then, in the state [wi], is the new
    connection stored.  Afterwards the user's slot holds the second
    connection, which the call left untouched, and the first connection is
    closed and no longer found under the user or under its ID. *)
Theorem Register_supersedes (w : World) (a1 a2 : addr) (t1 t2 : Z) :
  a1 <> a2 ->
  UserID (heap w a1) = UserID (heap w a2) ->
  let w1 := Register w a1 t1 in
  let wi := evict_old w1 a2 t2 in
  let w2 := Register w1 a2 t2 in
  let u := UserID (heap w a2) in
  let first := heap w1 a1 in
  let notice := json_Marshal (kickMsg (DeviceID (heap w1 a2)) t2) in
  connections (mgr w1) !! u = Some a1 /\
  w2 = store_new wi a2 /\
  connections (mgr wi) !! u = None /\
  connByID (mgr wi) !! ID first = None /\
  closed (heap wi a1) = true /\
  (closed first = false ->
   (length (buf (Send first)) < cap (Send first))%nat ->
   buf (Send (heap wi a1)) = buf (Send first) ++ [notice]) /\
  (closed first = true \/
   (cap (Send first) <= length (buf (Send first)))%nat ->
   buf (Send (heap wi a1)) = buf (Send first)) /\
  connections (mgr w2) !! u = Some a2 /\
  connByID (mgr w2) !! ID (heap w2 a2) = Some a2 /\
  connByID (mgr w2) !! ID first <> Some a1 /\
  heap w2 a1 = heap wi a1 /\
  heap w2 a2 = heap w1 a2.
Proof.
  intros Hne Hu w1 wi w2 u first notice.
  destruct (Register_lookup w a1 t1) as [Hslot Hid].
  fold w1 in Hslot, Hid. rewrite Hu in Hslot. fold u in Hslot.
  destruct (Register_fields w a1 t1 a2) as (_ & Hu2 & _).
  cbv zeta in Hu2. fold w1 in Hu2. fold u in Hu2.
  assert (Hold : connections (mgr w1) !! UserID (heap w1 a2) = Some a1)
    by (by rewrite Hu2).
  destruct (evict_old_loaded w1 a2 t2 a1 Hold) as (Hh1 & Hh & Hcs & Hids).
  fold wi in Hh1, Hh, Hcs, Hids. fold first in Hh1, Hids.
  destruct (evict_old_fields w1 a2 t2 a2) as (_ & Hu3 & _).
  cbv zeta in Hu3. fold wi in Hu3. rewrite Hu2 in Hu3.
  split; [done|]. split; [done|].
  split; [by rewrite Hcs, Hu2, lookup_delete_eq|].
  split; [by rewrite Hids, lookup_delete_eq|].
  split; [rewrite Hh1; apply Close_closed|].
  assert (Hbuf : forall m,
            buf (Send (Close (SendJSON first m).1).1)
            = buf (Send (SendMessage first (json_Marshal m)).1)).
  { intros m. by destruct (Close_fields (SendJSON first m).1) as (_ & _ & -> & _). }
  split.
  { intros Hopen Hroom. rewrite Hh1, Hbuf.
    by rewrite (SendMessage_room _ _ Hopen Hroom). }
  split.
  { intros Hdrop. rewrite Hh1, Hbuf.
    destruct (closed first) eqn:Hc.
    - by rewrite (SendMessage_closed _ _ Hc).
    - destruct Hdrop as [?|Hfull]; [done|].
      by rewrite (SendMessage_full _ _ Hc Hfull). }
  assert (Hw2 : w2 = store_new wi a2) by done.
  rewrite Hw2. unfold store_new. simpl. rewrite Hu3.
  split; [by rewrite lookup_insert_eq|].
  split; [by rewrite lookup_insert_eq|].
  split.
  { rewrite Hids. destruct (decide (ID (heap wi a2) = ID first)) as [->|Hd].
    - rewrite lookup_insert_eq. congruence.
    - rewrite lookup_insert_ne, lookup_delete_eq; done. }
  split; [done|].
  by apply Hh.
Qed.

End RegisterTwice.

Lemma Register_supersedes_witness :
  let w1 := @Register example_lib two_fresh_alices 1%nat 1500 in
  let w2 := @Register example_lib w1 2%nat 2000 in
  connections (mgr w2) !! "alice" = Some 2%nat /\
  closed (heap (@evict_old example_lib w1 2%nat 2000) 1%nat) = true.
Proof.
  pose proof (@Register_supersedes example_lib two_fresh_alices 1%nat 2%nat
                1500 2000 ltac:(discriminate) eq_refl) as P.
  cbv zeta in P. destruct P as (_ & _ & _ & _ & Hc & _ & _ & Hs & _).
  split; [exact Hs | exact Hc].
Defined.

(* ===================================================================== *)
(** * MessageDeduper                                                      *)
(* ===================================================================== *)

Lemma scan_oldest_none now entries :
  Forall (fun kv : string * Z => now <= kv.2) entries ->
  scan_oldest now entries = (now, "").
Proof.
  unfold scan_oldest. induction 1 as [|kv l Hkv _ IH]; [done|].
  simpl. unfold scan_step at 2. simpl.
  destruct (Z.ltb_spec kv.2 now); [lia|done].
Qed.

(** When no entry is older than the current second, [evictOldest] finds no
    victim and removes nothing. *)
Lemma evictOldest_no_victim d now :
  (forall k v, cache d !! k = Some v -> now <= v) ->
  evictOldest d now = d.
Proof.
  intros Hall. unfold evictOldest. rewrite scan_oldest_none; [done|].
  apply Forall_forall. intros [k v] Hin. simpl.
  apply (Hall k). by apply elem_of_map_to_list.
Qed.

(** So a new ID that arrives in the second in which all cached ones arrived
    makes the cache grow, whatever the capacity. *)
Lemma IsDuplicate_grows d messageID now :
  cache d !! messageID = None ->
  (forall k v, cache d !! k = Some v -> now <= v) ->
  size (cache (IsDuplicate d messageID now).2) = S (size (cache d)).
Proof.
  intros Hnew Hall. unfold IsDuplicate. rewrite Hnew.
  rewrite (evictOldest_no_victim _ _ Hall).
  destruct (_ >=? _); simpl; by rewrite map_size_insert_None.
Qed.

(** What the scan of [evictOldest] returns from any starting point below the
    current second: a minimum of what it has seen, and an entry of the list
    whenever it moved. *)
Lemma scan_oldest_acc (now : Z) (l : list (string * Z)) (acc : Z * string) :
  acc.1 <= now ->
  let r := fold_left scan_step l acc in
  r.1 <= acc.1 /\
  Forall (fun kv : string * Z => r.1 <= kv.2 \/ now <= kv.2) l /\
  (r = acc \/ ((r.2, r.1) ∈ l /\ r.1 < acc.1)).
Proof.
  revert acc. induction l as [|kv l IH]; intros acc Hacc r; subst r.
  - simpl. split; [lia|]. split; [constructor|]. by left.
  - change (fold_left scan_step (kv :: l) acc)
      with (fold_left scan_step l (scan_step acc kv)).
    assert (Hs : scan_step acc kv
                 = if kv.2 <? acc.1 then (kv.2, kv.1) else acc) by done.
    destruct (Z.ltb_spec kv.2 acc.1) as [Hlt|Hge]; rewrite Hs; clear Hs.
    + assert (Hkv : (kv.2, kv.1).1 <= now) by (simpl; lia).
      destruct (IH _ Hkv) as (H1 & H2 & H3). simpl in H1, H3.
      split; [lia|]. split.
      * constructor; [left; lia|done].
      * right. destruct H3 as [->|[Hin Hlt']]; simpl.
        -- split; [|done]. destruct kv; apply list_elem_of_here.
        -- split; [by apply list_elem_of_further|lia].
    + destruct (IH acc Hacc) as (H1 & H2 & H3).
      split; [done|]. split.
      * constructor; [|done]. destruct H3 as [->|[_ ?]]; lia.
      * destruct H3 as [?|[Hin Hlt']]; [by left|right].
        split; [by apply list_elem_of_further|done].
Qed.



(** C8: the code at the failing input.  A deduper of capacity 1 that sees
    two different message IDs within one second holds two entries after the
    second call: at capacity, [evictOldest] starts its search from the
    current second and evicts only an entry strictly older than that, so
    here it evicts nothing. *)
Theorem IsDuplicate_exceeds_capacity :
  let d0 := NewMessageDeduper 1 in
  let d1 := (IsDuplicate d0 "m1" 100).2 in
  let d2 := (IsDuplicate d1 "m2" 100).2 in
  (IsDuplicate d0 "m1" 100).1 = false /\
  (IsDuplicate d1 "m2" 100).1 = false /\
  size (cache d1) = 1%nat /\
  evictOldest d1 100 = d1 /\
  size (cache d2) = 2%nat /\
  dsize d2 = 1 /\
  dsize d2 < Z.of_nat (size (cache d2)).
Proof. vm_compute. repeat split; reflexivity. Qed.

(* ===================================================================== *)
(** * Dispatcher: targets that are neither local nor online               *)
(* ===================================================================== *)

(** C5, as stated, fails: the offline call is guarded by
    [if d.offlineSaver != nil].  A dispatcher built without an offline saver
    makes no offline-persistence call for its two offline targets. *)
Lemma DispatchToUsers_without_saver :
  localConns dispatcher_without_saver !! "bob" = None /\
  localConns dispatcher_without_saver !! "carol" = None /\
  redis_Get (redis dispatcher_without_saver) (onlineKey "bob") = RNil /\
  redis_Get (redis dispatcher_without_saver) (onlineKey "carol") = RNil /\
  @DispatchToUsers example_lib dispatcher_without_saver ["bob"; "carol"]
     chat_to_bob = ([], None) /\
  length (filter is_offline_save
            (@DispatchToUsers example_lib dispatcher_without_saver
               ["bob"; "carol"] chat_to_bob).1) <> 2%nat.
Proof. vm_compute. repeat split; try reflexivity. discriminate. Qed.

Section DispatchOffline.
Context `{GoLib}.

Lemma GetUserNode_missing d uid :
  redis_Get (redis d) (onlineKey uid) = RNil -> GetUserNode d uid = ("", None).
Proof. unfold GetUserNode. by intros ->. Qed.

Lemma dispatch_one_offline d data msg saver uid :
  offlineSaver d = Some saver ->
  localConns d !! uid = None ->
  redis_Get (redis d) (onlineKey uid) = RNil ->
  dispatch_one d data msg uid =
    ([EffSaveOfflineMessage uid msg],
     wrap_err "save offline message error" (saver uid msg)).
Proof.
  intros Hs Hl Hr. unfold dispatch_one, pushToLocalUser.
  rewrite Hl, (GetUserNode_missing _ _ Hr), Hs. done.
Qed.

Lemma DispatchToUsers_unfold d userIDs msg :
  DispatchToUsers d userIDs msg =
  let rs := map (dispatch_one d (json_Marshal msg) msg) userIDs in
  (concat (map fst rs), collect_errors (omap snd rs)).
Proof. destruct userIDs; reflexivity. Qed.

Lemma concat_singletons {A B C} (f : A -> B) (g : A -> C) (l : list A) :
  concat (map fst (map (fun u => ([f u], g u)) l)) = map f l.
Proof. induction l as [|x l IH]; [done|]. simpl. by rewrite IH. Qed.

Lemma omap_snd_map {A B C} (f : A -> B) (g : A -> option C) (l : list A) :
  omap snd (map (fun u => (f u, g u)) l) = omap g l.
Proof.
  induction l as [|x l IH]; [done|].
  change (omap snd (map (fun u => (f u, g u)) (x :: l)))
    with (match g x with
          | Some y => y :: omap snd (map (fun u => (f u, g u)) l)
          | None => omap snd (map (fun u => (f u, g u)) l)
          end).
  rewrite IH. reflexivity.
Qed.

Lemma map_dispatch_one_offline d data msg saver userIDs :
  offlineSaver d = Some saver ->
  (forall u, u ∈ userIDs ->
     localConns d !! u = None /\ redis_Get (redis d) (onlineKey u) = RNil) ->
  map (dispatch_one d data msg) userIDs =
  map (fun u => ([EffSaveOfflineMessage u msg],
                 wrap_err "save offline message error" (saver u msg))) userIDs.
Proof.
  intros Hs. induction userIDs as [|u us IH]; intros Hall; [done|].
  simpl. destruct (Hall u) as [Hl Hr]; [apply list_elem_of_here|].
  rewrite (dispatch_one_offline _ _ _ _ _ Hs Hl Hr), IH; [done|].
  intros v Hv. apply Hall. by apply list_elem_of_further.
Qed.

(** C5, amended.  When the dispatcher has an offline saver and none of the
    targets has a local connection or an online-status record,
    [DispatchToUsers] makes exactly one [SaveOfflineMessage] call per
    target and nothing else, so K calls for K distinct targets; the missing
    record makes [GetUserNode] answer the empty node with a [nil] error, and
    the only errors reported are those the saver itself returns. *)
Theorem DispatchToUsers_all_offline (d : messageDispatcherImpl)
    (saver : OfflineMessageSaver) (userIDs : list string) (msg : Message) :
  offlineSaver d = Some saver ->
  NoDup userIDs ->
  (forall u, u ∈ userIDs ->
     localConns d !! u = None /\ redis_Get (redis d) (onlineKey u) = RNil) ->
  let r := DispatchToUsers d userIDs msg in
  r.1 = map (fun u => EffSaveOfflineMessage u msg) userIDs /\
  NoDup r.1 /\
  length (filter is_offline_save r.1) = length userIDs /\
  (forall u, u ∈ userIDs -> GetUserNode d u = ("", None)) /\
  r.2 = collect_errors
          (omap (fun u => wrap_err "save offline message error" (saver u msg))
             userIDs) /\
  ((forall u, u ∈ userIDs -> saver u msg = None) -> r.2 = None).
Proof.
  intros Hs Hnd Hall r.
  assert (Hr : r = (map (fun u => EffSaveOfflineMessage u msg) userIDs,
                    collect_errors
                      (omap (fun u => wrap_err "save offline message error"
                                        (saver u msg)) userIDs))).
  { subst r. rewrite DispatchToUsers_unfold. cbv zeta.
    rewrite (map_dispatch_one_offline _ _ _ _ _ Hs Hall).
    by rewrite concat_singletons, omap_snd_map. }
  assert (Heffs : r.1 = map (fun u => EffSaveOfflineMessage u msg) userIDs)
    by (by rewrite Hr).
  assert (Herr : r.2 = collect_errors
                         (omap (fun u => wrap_err "save offline message error"
                                           (saver u msg)) userIDs))
    by (by rewrite Hr).
  clearbody r. clear Hr.
  split; [done|]. rewrite Heffs.
  split.
  { apply NoDup_fmap_2; [|done]. intros x y Hxy. by inversion Hxy. }
  split.
  { clear. induction userIDs; simpl; [done|]. by f_equal. }
  split; [intros u Hu; apply GetUserNode_missing; by apply Hall|].
  split; [done|].
  intros Hok. rewrite Herr.
  replace (omap _ userIDs) with (@nil error); [done|].
  clear -Hok. induction userIDs as [|v vs IH]; [done|]. simpl.
  rewrite (Hok v); [|apply list_elem_of_here]. simpl.
  apply IH. intros u Hu. apply Hok. by apply list_elem_of_further.
Qed.

End DispatchOffline.

Lemma DispatchToUsers_all_offline_witness :
  @DispatchToUsers example_lib dispatcher_with_saver ["bob"; "carol"] chat_to_bob
  = ([EffSaveOfflineMessage "bob" chat_to_bob;
      EffSaveOfflineMessage "carol" chat_to_bob], None).
Proof.
  pose proof (@DispatchToUsers_all_offline example_lib dispatcher_with_saver
                (fun _ _ => None) ["bob"; "carol"] chat_to_bob eq_refl) as P.
  destruct P as (H1 & _ & _ & _ & _ & H2).
  - apply (bool_decide_unpack _). reflexivity.
  - intros u _. split; reflexivity.
  - rewrite (surjective_pairing (DispatchToUsers _ _ _)).
    rewrite H1, H2; done.
Defined.

(* ===================================================================== *)
(** * The handler: stamping, deduplication, read receipts                 *)
(* ===================================================================== *)

(** C2, as stated, fails: what the pair of frames causes downstream is what
    the first frame causes, and that depends on its type.  Two heartbeat
    frames with the same message ID, the second arriving while the ID is in
    the cache, cause no dispatch and no persistence call at all. *)
Lemma duplicate_heartbeats_no_calls :
  let r1 := @handleMessage example_lib example_handler env_a alice2
              heartbeat_frame in
  let r2 := @handleMessage example_lib r1.1 env_b (out_conn r1.2)
              heartbeat_frame in
  cache (deduper r1.1) !! MessageID heartbeat_frame = Some 1000 /\
  out_calls r1.2 ++ out_calls r2.2 = [] /\
  length (filter is_dispatch_call (out_calls r1.2 ++ out_calls r2.2)) <> 1%nat /\
  length (filter is_save_call (out_calls r1.2 ++ out_calls r2.2)) <> 1%nat.
Proof. vm_compute. repeat split; try reflexivity; discriminate. Qed.

(** A single-chat frame of "alice" that claims to come from "mallory": one
    save and one dispatch, both of the re-stamped message, and an ack queued
    on the connection. *)
Example handleMessage_chat_frame :
  let forged :=
    {| MessageID := ""; Type_ := MsgSingleChat; From := "mallory"; To := "bob";
       Content := CJSON (JObj [("text", JStr "hi")]); ContentRaw := "";
       Timestamp := 42; ClientTimestamp := 0; QoS := 1; ConversationID := "";
       Seq := 0; Revoked := false; CreatedAt := 0 |} in
  let sent :=
    {| MessageID := "msg_1000_aa"; Type_ := MsgSingleChat; From := "alice";
       To := "bob"; Content := CJSON (JObj [("text", JStr "hi")]);
       ContentRaw := ""; Timestamp := 1000000; ClientTimestamp := 0; QoS := 1;
       ConversationID := "single:alice:bob"; Seq := 0; Revoked := false;
       CreatedAt := 0 |} in
  let r := @handleMessage example_lib example_handler env_a alice2 forged in
  out_calls r.2 = [CallSaveMessage sent; CallDispatchToUsers ["bob"] sent] /\
  out_err r.2 = None /\
  length (buf (Send (out_conn r.2))) = 1%nat /\
  cache (deduper r.1) !! "msg_1000_aa" = Some 1000.
Proof. vm_compute. repeat split; reflexivity. Qed.

Section HandlerFacts.
Context `{GoLib}.

Lemma set_deduper_same h : set_deduper h (deduper h) = h.
Proof. by destruct h. Qed.

Lemma stamp_fields env conn msg :
  let m := stamp env conn msg in
  From m = UserID conn /\ Timestamp m = nowMilli env /\
  MessageID m = effective_id env msg /\
  Type_ m = Type_ msg /\ To m = To msg /\ Content m = Content msg.
Proof.
  unfold stamp, effective_id. simpl.
  by destruct (String.eqb (MessageID msg) "").
Qed.

Lemma effective_id_nonempty env msg :
  MessageID msg <> "" -> effective_id env msg = MessageID msg.
Proof.
  unfold effective_id. intros Hne.
  destruct (String.eqb_spec (MessageID msg) ""); [done|done].
Qed.

Lemma handleMessage_duplicate h env conn msg :
  is_Some (cache (deduper h) !! effective_id env msg) ->
  handleMessage h env conn msg = (h, quiet conn).
Proof.
  intros [t Ht]. unfold handleMessage, IsDuplicate.
  destruct (stamp_fields env conn msg) as (_ & _ & -> & _).
  rewrite Ht. by rewrite set_deduper_same.
Qed.

Lemma handleMessage_fresh h env conn msg :
  cache (deduper h) !! effective_id env msg = None ->
  exists d,
    cache d !! effective_id env msg = Some (nowUnix env) /\
    handleMessage h env conn msg =
      (set_deduper h d, route (set_deduper h d) env conn (stamp env conn msg)).
Proof.
  intros Hnew. unfold handleMessage, IsDuplicate.
  destruct (stamp_fields env conn msg) as (_ & _ & -> & _).
  rewrite Hnew. eexists. split; [|reflexivity].
  simpl. by rewrite lookup_insert_eq.
Qed.

(** Every call made by [route] hands over the message it was given, at most
    with the conversation ID filled in. *)
Lemma route_calls h env conn m c :
  c ∈ out_calls (route h env conn m) ->
  call_msg c = m \/ exists cid, call_msg c = set_ConversationID m cid.
Proof.
  unfold route, handleHeartbeat, handleSingleChat, handleGroupChat, handleAck,
    handleReadReceipt, handleTyping, save_calls.
  repeat case_match; simpl; rewrite ?elem_of_cons, ?elem_of_nil;
    intros Hc; repeat destruct Hc as [Hc|Hc]; subst; simpl; eauto; done.
Qed.

Lemma route_chat h env conn m :
  is_chat (Type_ m) -> is_Some (messageSaver h) ->
  length (filter is_save_call (out_calls (route h env conn m))) = 1%nat /\
  length (filter is_dispatch_call (out_calls (route h env conn m))) = 1%nat.
Proof.
  intros Hty [sv Hsv]. unfold route.
  destruct Hty as [-> | [-> | ->]]; simpl;
    unfold handleSingleChat, handleGroupChat, save_calls; simpl;
    rewrite Hsv; done.
Qed.

End HandlerFacts.

Section HandlerTheorems.
Context `{GoLib}.

(** C2, amended.  A frame whose message ID is in the deduper cache when it
    arrives is dropped: [handleMessage] returns [nil], makes no call, sends
    nothing and leaves the handler as it was.  So a pair of frames with one
    message ID causes exactly the calls of its first frame; that first
    frame, when its ID is new, puts the ID into the cache, and when it is a
    single-chat, text or group-chat frame and a message saver is configured
    the pair causes exactly one persistence call and exactly one dispatch. *)
Theorem duplicate_frame_dropped (h2 : WebSocketHandler) (env2 : Env)
    (conn2 : Connection) (m2 : Message) :
  MessageID m2 <> "" ->
  is_Some (cache (deduper h2) !! MessageID m2) ->
  handleMessage h2 env2 conn2 m2 = (h2, quiet conn2) /\
  forall (h : WebSocketHandler) (env1 : Env) (conn1 : Connection)
         (m1 : Message),
    MessageID m1 = MessageID m2 ->
    cache (deduper h) !! MessageID m1 = None ->
    let r1 := handleMessage h env1 conn1 m1 in
    let calls := out_calls r1.2
                 ++ out_calls (handleMessage h2 env2 conn2 m2).2 in
    cache (deduper r1.1) !! MessageID m2 = Some (nowUnix env1) /\
    calls = out_calls r1.2 /\
    (is_chat (Type_ m1) -> is_Some (messageSaver h) ->
     length (filter is_save_call calls) = 1%nat /\
     length (filter is_dispatch_call calls) = 1%nat).
Proof.
  intros Hid Hin.
  assert (Hdrop : handleMessage h2 env2 conn2 m2 = (h2, quiet conn2)).
  { apply handleMessage_duplicate. by rewrite effective_id_nonempty. }
  split; [done|].
  intros h env1 conn1 m1 Hsame Hnew r1 calls.
  assert (Hid1 : effective_id env1 m1 = MessageID m2).
  { rewrite effective_id_nonempty; congruence. }
  destruct (handleMessage_fresh h env1 conn1 m1) as (d & Hd & Hr1).
  { by rewrite Hid1, <- Hsame. }
  assert (Hcalls : calls = out_calls r1.2).
  { subst calls. rewrite Hdrop. simpl. by rewrite app_nil_r. }
  split; [subst r1; rewrite Hr1; simpl; by rewrite <- Hid1|].
  split; [done|].
  intros Hchat Hsaver. rewrite Hcalls. subst r1. rewrite Hr1. simpl.
  apply route_chat; [|done].
  by destruct (stamp_fields env1 conn1 m1) as (_ & _ & _ & -> & _).
Qed.

(** C10.  [handleMessage] deduplicates a frame under its own message ID, or
    under a generated one when the frame has none; every message it hands to
    the saver, to the dispatcher or to the extension hook carries that ID,
    the user ID of the connection as sender and the server's clock reading
    as timestamp, whatever the frame said. *)
Theorem handleMessage_stamps (h : WebSocketHandler) (env : Env)
    (conn : Connection) (msg : Message) :
  let id := if String.eqb (MessageID msg) "" then freshID env
            else MessageID msg in
  let r := handleMessage h env conn msg in
  (is_Some (cache (deduper h) !! id) -> r = (h, quiet conn)) /\
  (cache (deduper h) !! id = None ->
   cache (deduper r.1) !! id = Some (nowUnix env)) /\
  (forall c, c ∈ out_calls r.2 ->
     From (call_msg c) = UserID conn /\
     Timestamp (call_msg c) = nowMilli env /\
     MessageID (call_msg c) = id).
Proof.
  intros id r. fold (effective_id env msg) in id.
  split; [apply handleMessage_duplicate|].
  split.
  { intros Hnew. destruct (handleMessage_fresh h env conn msg Hnew)
      as (d & Hd & Hr). subst r. by rewrite Hr. }
  intros c Hc. subst r.
  destruct (cache (deduper h) !! effective_id env msg) eqn:E.
  - rewrite handleMessage_duplicate in Hc by (by rewrite E).
    simpl in Hc. by apply elem_of_nil in Hc.
  - destruct (handleMessage_fresh h env conn msg E) as (d & _ & Hr).
    rewrite Hr in Hc. simpl in Hc.
    destruct (stamp_fields env conn msg) as (H1 & H2 & H3 & _).
    apply route_calls in Hc as [-> | [cid ->]]; simpl; by rewrite ?H1, ?H2, ?H3.
Qed.

Lemma single_prefix_mismatch a b :
  String.prefix "single_" (GetSingleChatConversationID a b) = false.
Proof. unfold GetSingleChatConversationID. by destruct (String.ltb a b). Qed.

(** C3: what the code does with a conversation ID made by
    [GetSingleChatConversationID].  Such an ID starts with ["single:"],
    [handleReadReceipt] looks for the prefix ["single_"], so the receipt is
    forwarded to nobody: no dispatch call is made and [nil] is returned. *)
Theorem read_receipt_not_forwarded (h : WebSocketHandler) (conn : Connection)
    (msg : Message) (content : ReadReceiptContent) (a b : string) :
  readReceiptContent (Content msg) = Some content ->
  rr_ConversationID content = GetSingleChatConversationID a b ->
  handleReadReceipt h conn msg = quiet conn.
Proof.
  intros Hc Hid. unfold handleReadReceipt. rewrite Hc, Hid.
  by rewrite single_prefix_mismatch.
Qed.

End HandlerTheorems.

Lemma duplicate_frame_dropped_witness :
  let h1 := (@handleMessage example_lib example_handler env_a alice2
               heartbeat_frame).1 in
  @handleMessage example_lib h1 env_b alice2 heartbeat_frame
  = (h1, quiet alice2).
Proof.
  apply (@duplicate_frame_dropped example_lib).
  - discriminate.
  - vm_compute. eexists. reflexivity.
Defined.

Lemma read_receipt_not_forwarded_witness :
  out_calls (handleReadReceipt example_handler alice2 receipt_frame) = [].
Proof.
  rewrite (read_receipt_not_forwarded example_handler alice2
             receipt_frame _ "alice" "bob" eq_refl eq_refl).
  reflexivity.
Defined.

(** The same receipt with the ID of [util.GenerateConversationID] is
    forwarded to the peer. *)
Example read_receipt_underscore_forwarded :
  out_calls (handleReadReceipt example_handler alice2 receipt_frame_underscore)
  = [CallDispatchToUsers ["bob"] receipt_frame_underscore].
Proof. reflexivity. Qed.

(* ===================================================================== *)
(** * ConnectionManager: Unregister, the registry invariant               *)
(* ===================================================================== *)

Lemma Unregister_heap w a : heap (Unregister w a) = heap w.
Proof. reflexivity. Qed.

Lemma Unregister_connByID w a :
  connByID (mgr (Unregister w a)) = delete (ID (heap w a)) (connByID (mgr w)).
Proof. reflexivity. Qed.

(** [Unregister] of the connection that the user's slot holds empties the
    slot. *)
Lemma Unregister_current w a :
  connections (mgr w) !! UserID (heap w a) = Some a ->
  connections (mgr (Unregister w a))
  = delete (UserID (heap w a)) (connections (mgr w)).
Proof.
  intros Hcur. unfold Unregister. simpl. rewrite Hcur.
  by rewrite String.eqb_refl.
Qed.

(** [Unregister] of a connection whose ID is not the one of the stored
    connection leaves the slots of all users as they are. *)
Lemma Unregister_not_current w a :
  (forall cur, connections (mgr w) !! UserID (heap w a) = Some cur ->
               ID (heap w cur) <> ID (heap w a)) ->
  connections (mgr (Unregister w a)) = connections (mgr w).
Proof.
  intros Hne. unfold Unregister. simpl.
  destruct (connections (mgr w) !! UserID (heap w a)) as [cur|] eqn:E; [|done].
  destruct (String.eqb_spec (ID (heap w cur)) (ID (heap w a))) as [Heq|]; [|done].
  by destruct (Hne cur eq_refl).
Qed.

Lemma reg_inv_empty h : reg_inv (empty_world h).
Proof. split; intros ? ? Hl; simpl in Hl; by rewrite lookup_empty in Hl. Qed.

Lemma reg_inv_transfer w w' :
  (forall x, UserID (heap w' x) = UserID (heap w x) /\
             ID (heap w' x) = ID (heap w x)) ->
  (forall u a, connections (mgr w') !! u = Some a ->
               connections (mgr w) !! u = Some a) ->
  (forall i a, connByID (mgr w') !! i = Some a ->
               connByID (mgr w) !! i = Some a) ->
  reg_inv w -> reg_inv w'.
Proof.
  intros Hf Hc Hi [H1 H2]. split.
  - intros u a Hu. destruct (Hf a) as [-> _]. by apply H1, Hc.
  - intros i a Hi'. destruct (Hf a) as [_ ->]. by apply H2, Hi.
Qed.

Lemma update_at_fields w a f x :
  UserID (f (heap w a)) = UserID (heap w a) ->
  ID (f (heap w a)) = ID (heap w a) ->
  UserID (heap (update_at w a f) x) = UserID (heap w x) /\
  ID (heap (update_at w a f) x) = ID (heap w x).
Proof.
  intros Hu Hi. unfold update_at, set_heap, heap_set. simpl.
  destruct (decide (x = a)) as [->|]; done.
Qed.

Lemma update_at_reg_inv w a f :
  UserID (f (heap w a)) = UserID (heap w a) ->
  ID (f (heap w a)) = ID (heap w a) ->
  reg_inv w -> reg_inv (update_at w a f).
Proof.
  intros Hu Hi. apply reg_inv_transfer; [|done|done].
  intros x. by apply update_at_fields.
Qed.

Lemma Unregister_lookup_sub w a u x :
  connections (mgr (Unregister w a)) !! u = Some x ->
  connections (mgr w) !! u = Some x.
Proof.
  unfold Unregister. simpl.
  destruct (connections (mgr w) !! UserID (heap w a)) as [cur|]; [|done].
  destruct (String.eqb _ _); [|done].
  intros Hl. apply lookup_delete_Some in Hl. tauto.
Qed.

Lemma Unregister_reg_inv w a : reg_inv w -> reg_inv (Unregister w a).
Proof.
  apply reg_inv_transfer.
  - done.
  - intros u x. apply Unregister_lookup_sub.
  - intros i x. rewrite Unregister_connByID. intros Hl.
    apply lookup_delete_Some in Hl. tauto.
Qed.

Lemma Close_reg_fields c :
  UserID (Close c).1 = UserID c /\ ID (Close c).1 = ID c.
Proof. destruct (Close_fields c) as (? & ? & _). done. Qed.

Lemma readPump_exit_reg_inv w a : reg_inv w -> reg_inv (readPump_exit w a).
Proof.
  intros Hw. unfold readPump_exit.
  apply update_at_reg_inv; try apply Close_reg_fields.
  by apply Unregister_reg_inv.
Qed.

Section RegistryInvariant.
Context `{GoLib}.

Lemma evict_old_reg_inv w a now : reg_inv w -> reg_inv (evict_old w a now).
Proof.
  apply reg_inv_transfer.
  - intros x. destruct (evict_old_fields w a now x) as (? & ? & _). done.
  - unfold evict_old. destruct (connections (mgr w) !! _); [|done].
    simpl. intros u x Hl. apply lookup_delete_Some in Hl. tauto.
  - unfold evict_old. destruct (connections (mgr w) !! _); [|done].
    simpl. intros u x Hl. apply lookup_delete_Some in Hl. tauto.
Qed.

Lemma store_new_reg_inv w a : reg_inv w -> reg_inv (store_new w a).
Proof.
  intros [H1 H2]. unfold store_new. split; simpl.
  - intros u x Hl. apply lookup_insert_Some in Hl as [[<- <-]|[_ Hl]]; auto.
  - intros i x Hl. apply lookup_insert_Some in Hl as [[<- <-]|[_ Hl]]; auto.
Qed.

Lemma Register_reg_inv w a now : reg_inv w -> reg_inv (Register w a now).
Proof. intros Hw. by apply store_new_reg_inv, evict_old_reg_inv. Qed.

(** X1.  The registry invariant holds in a manager with nothing registered
    and is kept by [Register], by [Unregister] and by the exit of a read
    loop; under it, two users never share a connection object. *)
Theorem reg_inv_kept (w : World) (a : addr) (now : Z) (h : Heap) :
  reg_inv (empty_world h) /\
  (reg_inv w ->
   reg_inv (Register w a now) /\ reg_inv (Unregister w a) /\
   reg_inv (readPump_exit w a) /\
   (forall u1 u2 x, connections (mgr w) !! u1 = Some x ->
                    connections (mgr w) !! u2 = Some x -> u1 = u2)).
Proof.
  split; [apply reg_inv_empty|].
  - intros Hw. split; [|split; [|split]].
    + by apply Register_reg_inv.
    + by apply Unregister_reg_inv.
    + by apply readPump_exit_reg_inv.
    + intros u1 u2 x Hu1 Hu2. destruct Hw as [H1 _].
      by rewrite <- (H1 _ _ Hu1), <- (H1 _ _ Hu2).
Qed.

(** X2.  [Register] touches no other user: the slots of all other users are
    as before, the only connection object it changes is the one it found in
    the user's slot, and the count of registrations goes up by one. *)
Theorem Register_frame (w : World) (a : addr) (now : Z) :
  let w' := Register w a now in
  (forall u, u <> UserID (heap w a) ->
     connections (mgr w') !! u = connections (mgr w) !! u) /\
  (forall x, connections (mgr w) !! UserID (heap w a) <> Some x ->
     heap w' x = heap w x) /\
  totalConnections (mgr w') = wrap64 (totalConnections (mgr w) + 1) /\
  activeUsers (mgr w') = wrap64 (Z.of_nat (size (connections (mgr w')))).
Proof.
  intros w'. subst w'. unfold Register, store_new. simpl.
  destruct (evict_old_fields w a now a) as (_ & Hu & _). simpl in Hu.
  rewrite Hu. split; [|split; [|split]].
  - intros u Hne. rewrite lookup_insert_ne by done.
    unfold evict_old. destruct (connections (mgr w) !! _); [|done].
    simpl. by rewrite lookup_delete_ne.
  - intros x Hx. unfold evict_old.
    destruct (connections (mgr w) !! UserID (heap w a)) as [old|]; [|done].
    simpl. rewrite heap_set_ne; [done|]. congruence.
  - unfold evict_old. by destruct (connections (mgr w) !! _).
  - reflexivity.
Qed.

End RegistryInvariant.

Lemma readPump_exit_mgr w a : mgr (readPump_exit w a) = mgr (Unregister w a).
Proof. reflexivity. Qed.

Lemma readPump_exit_heap w a :
  heap (readPump_exit w a) = heap_set (heap w) a (Close (heap w a)).1.
Proof. reflexivity. Qed.

Lemma reg_inv_kept_witness :
  reg_inv (@Register example_lib (empty_world (fun _ => alice2)) 2%nat 2000).
Proof.
  pose proof (@reg_inv_kept example_lib (empty_world (fun _ => alice2)) 2%nat
                2000 (fun _ => alice2)) as [Hempty Hkept].
  exact (proj1 (Hkept Hempty)).
Defined.

Section ReadLoopExit.
Context `{GoLib}.

(** X3.  When the read loop of a superseded connection ends, its deferred
    [Unregister] and [Close] leave the successor registered and untouched:
    with different connection IDs, the user's slot and the ID entry still
    hold the second connection, and the first one, closed already by the
    eviction, stays as it is. *)
Theorem readPump_exit_superseded (w : World) (a1 a2 : addr) (t1 t2 : Z) :
  a1 <> a2 ->
  UserID (heap w a1) = UserID (heap w a2) ->
  ID (heap w a1) <> ID (heap w a2) ->
  let w2 := Register (Register w a1 t1) a2 t2 in
  let w3 := readPump_exit w2 a1 in
  connections (mgr w3) !! UserID (heap w a2) = Some a2 /\
  connByID (mgr w3) !! ID (heap w a2) = Some a2 /\
  heap w3 a2 = heap w2 a2 /\
  closed (heap w2 a1) = true /\
  heap w3 a1 = heap w2 a1.
Proof.
  intros Hne Hu Hid w2 w3.
  set (w1 := Register w a1 t1) in *.
  destruct (Register_fields w a1 t1 a1) as (Hi11 & Hu11 & _).
  destruct (Register_fields w a1 t1 a2) as (Hi12 & Hu12 & _).
  destruct (Register_fields w1 a2 t2 a1) as (Hi21 & Hu21 & _).
  destruct (Register_fields w1 a2 t2 a2) as (Hi22 & Hu22 & _).
  cbv zeta in *. fold w1 in Hi11, Hu11, Hi12, Hu12. fold w2 in Hi21, Hu21, Hi22, Hu22.
  destruct (Register_lookup w a1 t1) as [Hs1 _]. fold w1 in Hs1.
  destruct (Register_lookup w1 a2 t2) as [Hs2 Hb2]. fold w2 in Hs2, Hb2.
  rewrite Hu12 in Hs2. rewrite Hi12 in Hb2.
  assert (Hold : connections (mgr w1) !! UserID (heap w1 a2) = Some a1).
  { by rewrite Hu12, <- Hu. }
  destruct (evict_old_loaded w1 a2 t2 a1 Hold) as (Hh1 & _).
  assert (Hcl : closed (heap w2 a1) = true).
  { change (heap w2 a1) with (heap (evict_old w1 a2 t2) a1).
    rewrite Hh1. apply Close_closed. }
  assert (Hcs : connections (mgr (Unregister w2 a1)) = connections (mgr w2)).
  { apply Unregister_not_current. intros cur.
    rewrite Hu21, Hu11, Hu, Hs2. intros [= <-].
    rewrite Hi22, Hi12, Hi21, Hi11. congruence. }
  subst w3. rewrite readPump_exit_mgr, readPump_exit_heap.
  split; [by rewrite Hcs|].
  split.
  { rewrite Unregister_connByID, Hi21, Hi11, lookup_delete_ne; [done|].
    congruence. }
  split; [by rewrite heap_set_ne|].
  split; [done|].
  rewrite heap_set_eq. by rewrite (Close_again _ Hcl).
Qed.

End ReadLoopExit.

(** X4.  When the read loop of the registered connection ends, the
    connection is gone from the user's slot and from the ID map and is
    closed; no other slot and no other connection object changes, and the
    count of active users is the number of slots left. *)
Theorem readPump_exit_current (w : World) (a : addr) :
  connections (mgr w) !! UserID (heap w a) = Some a ->
  let w' := readPump_exit w a in
  connections (mgr w') !! UserID (heap w a) = None /\
  connByID (mgr w') !! ID (heap w a) = None /\
  closed (heap w' a) = true /\
  (forall u, u <> UserID (heap w a) ->
     connections (mgr w') !! u = connections (mgr w) !! u) /\
  (forall x, x <> a -> heap w' x = heap w x) /\
  activeUsers (mgr w') = wrap64 (Z.of_nat (size (connections (mgr w')))).
Proof.
  intros Hcur w'. subst w'.
  rewrite readPump_exit_mgr, readPump_exit_heap.
  rewrite (Unregister_current _ _ Hcur), Unregister_connByID.
  split; [apply lookup_delete_eq|].
  split; [apply lookup_delete_eq|].
  split; [rewrite heap_set_eq; apply Close_closed|].
  split; [intros u Hu; by rewrite lookup_delete_ne|].
  split; [intros x Hx; by rewrite heap_set_ne|].
  unfold countActiveUsers. simpl. by rewrite Hcur, String.eqb_refl.
Qed.

Lemma readPump_exit_superseded_witness :
  let w2 := @Register example_lib
              (@Register example_lib two_fresh_alices 1%nat 1500) 2%nat 2000 in
  connections (mgr (readPump_exit w2 1%nat)) !! "alice" = Some 2%nat.
Proof.
  apply (@readPump_exit_superseded example_lib two_fresh_alices 1%nat 2%nat
           1500 2000); [discriminate | reflexivity | discriminate].
Defined.

Lemma readPump_exit_current_witness :
  let w1 := @Register example_lib two_fresh_alices 1%nat 1500 in
  connections (mgr (readPump_exit w1 1%nat)) !! "alice" = None.
Proof.
  apply (readPump_exit_current
           (@Register example_lib two_fresh_alices 1%nat 1500) 1%nat).
  vm_compute. reflexivity.
Defined.

(* ===================================================================== *)
(** * ConnectionManager: the idle sweep                                   *)
(* ===================================================================== *)

Lemma CleanIdleConnections_fold w now t :
  CleanIdleConnections w now t
  = fold_left (clean_step now t) (map_to_list (connections (mgr w))).*1 (w, 0).
Proof. reflexivity. Qed.

(** One step on a stored, idle connection. *)
Lemma clean_step_idle now t w n k a :
  reg_inv w ->
  connections (mgr w) !! k = Some a ->
  idle now t (heap w a) = true ->
  let s := clean_step now t (w, n) k in
  connections (mgr s.1) = delete k (connections (mgr w)) /\
  heap s.1 = heap_set (heap w) a (Close (heap w a)).1 /\
  s.2 = n + 1 /\ reg_inv s.1.
Proof.
  intros Hw Hk Hidle s. subst s. unfold clean_step. simpl. rewrite Hk, Hidle.
  assert (Hu : UserID (heap w a) = k) by (by apply Hw).
  assert (Hcur : connections (mgr w) !! UserID (heap w a) = Some a)
    by (by rewrite Hu).
  change (update_at (Unregister w a) a (fun c => (Close c).1))
    with (readPump_exit w a).
  cbn [fst snd]. rewrite readPump_exit_mgr, readPump_exit_heap.
  rewrite (Unregister_current _ _ Hcur), Hu.
  repeat split; try done; by apply readPump_exit_reg_inv.
Qed.

Lemma clean_step_keep now t w n k :
  (forall a, connections (mgr w) !! k = Some a ->
             idle now t (heap w a) = false) ->
  clean_step now t (w, n) k = (w, n).
Proof.
  intros Hk. unfold clean_step. simpl.
  destruct (connections (mgr w) !! k) as [a|]; [|done].
  by rewrite (Hk a eq_refl).
Qed.

Lemma clean_fold now t (l : list string) :
  NoDup l ->
  forall w n, reg_inv w ->
  let r := fold_left (clean_step now t) l (w, n) in
  reg_inv r.1 /\
  (forall u a, connections (mgr w) !! u = Some a ->
     u ∈ l -> idle now t (heap w a) = true ->
     connections (mgr r.1) !! u = None /\
     heap r.1 a = (Close (heap w a)).1) /\
  (forall u a, connections (mgr w) !! u = Some a ->
     (u ∈ l -> idle now t (heap w a) = false) ->
     connections (mgr r.1) !! u = Some a /\ heap r.1 a = heap w a) /\
  (forall u, connections (mgr w) !! u = None ->
     connections (mgr r.1) !! u = None) /\
  (forall x, (forall u, connections (mgr w) !! u <> Some x) ->
     heap r.1 x = heap w x) /\
  r.2 + Z.of_nat (size (connections (mgr r.1)))
  = n + Z.of_nat (size (connections (mgr w))).
Proof.
  induction 1 as [|k l Hk Hnd IH]; intros w n Hw; simpl.
  { split; [done|]. split.
    { intros u a _ Hin. by apply elem_of_nil in Hin. }
    split; [intros u a Hu _; by split|]. done. }
  destruct (connections (mgr w) !! k) as [a|] eqn:Ek.
  2:{ rewrite clean_step_keep by (intros a; congruence).
      destruct (IH w n Hw) as (I1 & I2 & I3 & I4 & I5 & I6).
      split; [done|]. split.
      { intros u b Hu Hin Hidle. apply (I2 u b Hu); [|done].
        apply elem_of_cons in Hin as [->|]; [congruence|done]. }
      split.
      { intros u b Hu Hin. apply (I3 u b Hu). intros ?. apply Hin.
        by apply list_elem_of_further. }
      done. }
  destruct (idle now t (heap w a)) eqn:Eidle.
  2:{ rewrite clean_step_keep by (intros b; congruence).
      destruct (IH w n Hw) as (I1 & I2 & I3 & I4 & I5 & I6).
      split; [done|]. split.
      { intros u b Hu Hin Hidle. apply (I2 u b Hu); [|done].
        apply elem_of_cons in Hin as [->|]; [congruence|done]. }
      split.
      { intros u b Hu Hin. apply (I3 u b Hu). intros ?. apply Hin.
        by apply list_elem_of_further. }
      done. }
  destruct (clean_step_idle now t w n k a Hw Ek Eidle) as (Sc & Sh & Sn & Sr).
  destruct (clean_step now t (w, n) k) as [w1 n1] eqn:Es. simpl in *.
  destruct (IH w1 n1 Sr) as (I1 & I2 & I3 & I4 & I5 & I6).
  assert (Hother : forall u b, u <> k -> connections (mgr w) !! u = Some b ->
            connections (mgr w1) !! u = Some b /\ heap w1 b = heap w b).
  { intros u b Hne Hu. split; [by rewrite Sc, lookup_delete_ne|].
    rewrite Sh, heap_set_ne; [done|]. intros ->.
    destruct Hw as [H1 _]. apply Hne.
    by rewrite <- (H1 _ _ Hu), <- (H1 _ _ Ek). }
  assert (Ha : connections (mgr (fold_left (clean_step now t) l (w1, n1)).1)
                 !! k = None /\
               heap (fold_left (clean_step now t) l (w1, n1)).1 a
               = (Close (heap w a)).1).
  { split; [apply I4; by rewrite Sc, lookup_delete_eq|].
    rewrite I5; [by rewrite Sh, heap_set_eq|].
    intros u Hu. rewrite Sc in Hu. apply lookup_delete_Some in Hu as [Hne Hu].
    destruct Hw as [H1 _]. apply Hne.
    by rewrite <- (H1 _ _ Hu), <- (H1 _ _ Ek). }
  split; [done|]. split.
  { intros u b Hu Hin Hidle. destruct (decide (u = k)) as [->|Hne].
    - assert (b = a) as -> by congruence. done.
    - destruct (Hother u b Hne Hu) as [Hu1 Hb1].
      apply elem_of_cons in Hin as [?|Hin]; [done|].
      destruct (I2 u b Hu1 Hin) as [? ?]; [by rewrite Hb1|].
      split; [done|]. by rewrite <- Hb1. }
  split.
  { intros u b Hu Hkeep. destruct (decide (u = k)) as [->|Hne].
    - assert (b = a) as -> by congruence.
      rewrite Hkeep in Eidle by apply list_elem_of_here. done.
    - destruct (Hother u b Hne Hu) as [Hu1 Hb1].
      destruct (I3 u b Hu1) as [? ?].
      { intros Hin. rewrite Hb1. apply Hkeep. by apply list_elem_of_further. }
      split; [done|]. by rewrite <- Hb1. }
  split.
  { intros u Hu. apply I4. rewrite Sc.
    destruct (decide (u = k)) as [->|]; [apply lookup_delete_eq|].
    by rewrite lookup_delete_ne. }
  split.
  { intros x Hx. rewrite I5.
    - rewrite Sh, heap_set_ne; [done|]. intros ->. by apply (Hx k).
    - intros u Hu. rewrite Sc in Hu. apply lookup_delete_Some in Hu as [_ Hu].
      by apply (Hx u). }
  rewrite I6, Sn, Sc, map_size_delete_Some by done.
  assert (size (connections (mgr w)) <> 0%nat).
  { apply map_size_non_empty_iff. intros E. by rewrite E, lookup_empty in Ek. }
  lia.
Qed.

(** X5.  The idle sweep, started in a registry that satisfies the invariant:
    every stored connection that is idle ends closed and out of its user's
    slot, every other stored connection stays in its slot with its object
    untouched, connections that are not stored are not touched, the
    invariant is kept, and the returned count is the number of slots the
    sweep emptied. *)
Theorem CleanIdleConnections_sweeps (w : World) (now idleTimeout : Z) :
  reg_inv w ->
  let r := CleanIdleConnections w now idleTimeout in
  reg_inv r.1 /\
  (forall u a, connections (mgr w) !! u = Some a ->
     idle now idleTimeout (heap w a) = true ->
     connections (mgr r.1) !! u = None /\ closed (heap r.1 a) = true) /\
  (forall u a, connections (mgr w) !! u = Some a ->
     idle now idleTimeout (heap w a) = false ->
     connections (mgr r.1) !! u = Some a /\ heap r.1 a = heap w a) /\
  (forall x, (forall u, connections (mgr w) !! u <> Some x) ->
     heap r.1 x = heap w x) /\
  r.2 = Z.of_nat (size (connections (mgr w)))
        - Z.of_nat (size (connections (mgr r.1))).
Proof.
  intros Hw r. subst r. rewrite CleanIdleConnections_fold.
  destruct (clean_fold now idleTimeout
              (map_to_list (connections (mgr w))).*1
              (NoDup_fst_map_to_list _) w 0 Hw)
    as (I1 & I2 & I3 & I4 & I5 & I6).
  split; [done|]. split.
  { intros u a Hu Hidle. destruct (I2 u a Hu) as [? Hh]; [|done|].
    - apply list_elem_of_fmap. exists (u, a). split; [done|].
      by apply elem_of_map_to_list.
    - split; [done|]. rewrite Hh. apply Close_closed. }
  split; [intros u a Hu Hidle; by apply (I3 u a Hu)|].
  split; [done|]. lia.
Qed.

Lemma alice_registered_inv : reg_inv alice_registered.
Proof. apply store_new_reg_inv, reg_inv_empty. Qed.

Lemma CleanIdleConnections_sweeps_witness :
  let r := CleanIdleConnections alice_registered 100000 60 in
  connections (mgr r.1) !! "alice" = None /\ closed (heap r.1 1%nat) = true.
Proof.
  apply (CleanIdleConnections_sweeps alice_registered 100000 60
           alice_registered_inv); reflexivity.
Defined.

(* ===================================================================== *)
(** * ConnectionManager: fan-out                                          *)
(* ===================================================================== *)

(** A method that keeps the identity of a connection, called on the stored
    connection of each listed user. *)
Lemma fold_update_at (f : Connection -> Connection) (l : list string) :
  (forall c, UserID (f c) = UserID c /\ ID (f c) = ID c) ->
  NoDup l ->
  forall w, reg_inv w ->
  let r := fold_left
             (fun w u => match connections (mgr w) !! u with
                         | Some a => update_at w a f
                         | None => w
                         end) l w in
  mgr r = mgr w /\ reg_inv r /\
  (forall u a, u ∈ l -> connections (mgr w) !! u = Some a ->
     heap r a = f (heap w a)) /\
  (forall x, (forall u, u ∈ l -> connections (mgr w) !! u <> Some x) ->
     heap r x = heap w x).
Proof.
  intros Hf. induction 1 as [|k l Hk Hnd IH]; intros w Hw; simpl.
  { split; [done|]. split; [done|]. split; [|done].
    intros u a Hin. by apply elem_of_nil in Hin. }
  destruct (connections (mgr w) !! k) as [a|] eqn:Ek.
  2:{ destruct (IH w Hw) as (I1 & I2 & I3 & I4).
      split; [done|]. split; [done|]. split.
      - intros u b Hin Hu. apply (I3 u b); [|done].
        apply elem_of_cons in Hin as [->|]; [congruence|done].
      - intros x Hx. apply I4. intros u Hu. apply Hx.
        by apply list_elem_of_further. }
  assert (Hw1 : reg_inv (update_at w a f))
    by (apply update_at_reg_inv; [apply Hf|apply Hf|done]).
  destruct (IH (update_at w a f) Hw1) as (I1 & I2 & I3 & I4).
  change (mgr (update_at w a f)) with (mgr w) in *.
  assert (Hu_a : UserID (heap w a) = k) by (by apply Hw).
  split; [done|]. split; [done|]. split.
  - intros u b Hin Hu. destruct (decide (u = k)) as [->|Hne].
    + assert (b = a) as -> by congruence.
      rewrite I4; [unfold update_at; simpl; by rewrite heap_set_eq|].
      intros u Hul Hu'. apply Hk. destruct Hw as [H1 _].
      assert (u = k) as <-; [|done].
      by rewrite <- (H1 _ _ Hu'), <- Hu_a.
    + apply elem_of_cons in Hin as [?|Hin]; [done|].
      rewrite (I3 u b Hin Hu). unfold update_at. simpl.
      rewrite heap_set_ne; [done|]. intros ->. destruct Hw as [H1 _].
      apply Hne. by rewrite <- (H1 _ _ Hu), <- (H1 _ _ Ek).
  - intros x Hx. rewrite I4.
    + unfold update_at. simpl. rewrite heap_set_ne; [done|].
      intros ->. apply (Hx k); [apply list_elem_of_here|done].
    + intros u Hu. apply Hx. by apply list_elem_of_further.
Qed.

Lemma SendMessage_reg_fields data c :
  UserID (SendMessage c data).1 = UserID c /\ ID (SendMessage c data).1 = ID c.
Proof. destruct (SendMessage_fields c data) as (? & ? & _). done. Qed.

(** X6.  [BroadcastToUsers] over a list without repetitions, in a registry
    that satisfies the invariant: the stored connection of every listed user
    has gone through [SendMessage], whatever happened to the sends before it
    in the list (a closed or full connection does not stop the fan-out), so
    it ends with the data queued when it is open and has room; connections
    of users not listed and the registry maps are as before. *)
Theorem BroadcastToUsers_best_effort (w : World) (userIDs : list string)
    (data : bytes) :
  reg_inv w -> NoDup userIDs ->
  let r := BroadcastToUsers w userIDs data in
  mgr r = mgr w /\
  (forall u a, u ∈ userIDs -> connections (mgr w) !! u = Some a ->
     heap r a = (SendMessage (heap w a) data).1 /\
     (closed (heap w a) = false ->
      (length (buf (Send (heap w a))) < cap (Send (heap w a)))%nat ->
      buf (Send (heap r a)) = buf (Send (heap w a)) ++ [data])) /\
  (forall x, (forall u, u ∈ userIDs -> connections (mgr w) !! u <> Some x) ->
     heap r x = heap w x).
Proof.
  intros Hw Hnd r.
  destruct (fold_update_at (fun c => (SendMessage c data).1) userIDs
              (SendMessage_reg_fields data) Hnd w Hw) as (I1 & _ & I3 & I4).
  split; [done|]. split; [|done].
  intros u a Hin Hu. subst r. unfold BroadcastToUsers, GetConnection.
  rewrite (I3 u a Hin Hu). split; [done|].
  intros Hopen Hroom. by rewrite (SendMessage_room _ _ Hopen Hroom).
Qed.

Lemma map_to_list_key_elem (m : gmap string addr) u a :
  m !! u = Some a -> u ∈ (map_to_list m).*1.
Proof.
  intros Hu. apply list_elem_of_fmap. exists (u, a). split; [done|].
  by apply elem_of_map_to_list.
Qed.

(** X7.  [Broadcast] in a registry that satisfies the invariant: every
    stored connection has gone through [SendMessage] once, those that are
    open and have room end with the data queued, a closed or full one is
    left as it was, and nothing else changes. *)
Theorem Broadcast_best_effort (w : World) (data : bytes) :
  reg_inv w ->
  let r := Broadcast w data in
  mgr r = mgr w /\
  (forall u a, connections (mgr w) !! u = Some a ->
     heap r a = (SendMessage (heap w a) data).1 /\
     (closed (heap w a) = false ->
      (length (buf (Send (heap w a))) < cap (Send (heap w a)))%nat ->
      buf (Send (heap r a)) = buf (Send (heap w a)) ++ [data]) /\
     (closed (heap w a) = true \/
      (cap (Send (heap w a)) <= length (buf (Send (heap w a))))%nat ->
      heap r a = heap w a)) /\
  (forall x, (forall u, connections (mgr w) !! u <> Some x) ->
     heap r x = heap w x).
Proof.
  intros Hw r.
  destruct (fold_update_at (fun c => (SendMessage c data).1)
              (map_to_list (connections (mgr w))).*1
              (SendMessage_reg_fields data) (NoDup_fst_map_to_list _) w Hw)
    as (I1 & _ & I3 & I4).
  split; [done|]. split.
  - intros u a Hu. subst r. unfold Broadcast, Range_connections.
    rewrite (I3 u a (map_to_list_key_elem _ _ _ Hu) Hu).
    split; [done|]. split.
    + intros Hopen Hroom. by rewrite (SendMessage_room _ _ Hopen Hroom).
    + intros Hdrop. destruct (closed (heap w a)) eqn:Hc.
      * by rewrite (SendMessage_closed _ _ Hc).
      * destruct Hdrop as [?|Hfull]; [done|].
        by rewrite (SendMessage_full _ _ Hc Hfull).
  - intros x Hx. apply I4. intros u _. apply Hx.
Qed.

(** X8.  [CloseAll] in a registry that satisfies the invariant: every stored
    connection ends closed, and stays stored: the maps are not changed, and
    no other connection is touched. *)
Theorem CloseAll_closes (w : World) :
  reg_inv w ->
  let r := CloseAll w in
  mgr r = mgr w /\
  (forall u a, connections (mgr w) !! u = Some a ->
     closed (heap r a) = true /\ connections (mgr r) !! u = Some a) /\
  (forall x, (forall u, connections (mgr w) !! u <> Some x) ->
     heap r x = heap w x).
Proof.
  intros Hw r.
  destruct (fold_update_at (fun c => (Close c).1)
              (map_to_list (connections (mgr w))).*1
              Close_reg_fields (NoDup_fst_map_to_list _) w Hw)
    as (I1 & _ & I3 & I4).
  split; [done|]. split.
  - intros u a Hu. subst r. unfold CloseAll, Range_connections.
    rewrite (I3 u a (map_to_list_key_elem _ _ _ Hu) Hu), I1.
    split; [apply Close_closed|done].
  - intros x Hx. apply I4. intros u _. apply Hx.
Qed.

Lemma BroadcastToUsers_best_effort_witness :
  buf (Send (heap (BroadcastToUsers alice_registered ["bob"; "alice"] hello)
               1%nat)) = [hello].
Proof.
  destruct (BroadcastToUsers_best_effort alice_registered ["bob"; "alice"]
              hello alice_registered_inv) as (_ & H2 & _).
  - apply (bool_decide_unpack _). reflexivity.
  - destruct (H2 "alice" 1%nat) as [_ Hq].
    + apply list_elem_of_further, list_elem_of_here.
    + reflexivity.
    + apply Hq; [reflexivity|vm_compute; lia].
Defined.

Lemma Broadcast_best_effort_witness :
  buf (Send (heap (Broadcast alice_registered hello) 1%nat)) = [hello].
Proof.
  destruct (Broadcast_best_effort alice_registered hello alice_registered_inv)
    as (_ & H2 & _).
  destruct (H2 "alice" 1%nat) as (_ & Hq & _); [reflexivity|].
  apply Hq; [reflexivity|vm_compute; lia].
Defined.

Lemma CloseAll_closes_witness :
  closed (heap (CloseAll alice_registered) 1%nat) = true /\
  connections (mgr (CloseAll alice_registered)) !! "alice" = Some 1%nat.
Proof.
  destruct (CloseAll_closes alice_registered alice_registered_inv)
    as (_ & H2 & _).
  apply (H2 "alice" 1%nat). reflexivity.
Defined.

(* ===================================================================== *)
(** * MessageDeduper: eviction and expiry                                 *)
(* ===================================================================== *)

(** [evictOldest] removes nothing or one entry, and then one whose
    timestamp is below the current second and below or equal to every other
    timestamp in the cache; this holds for any order of the scan. *)
Lemma evictOldest_minimum d now :
  evictOldest d now = d \/
  exists k v,
    cache d !! k = Some v /\ v < now /\
    (forall k' v', cache d !! k' = Some v' -> v <= v') /\
    evictOldest d now = {| cache := delete k (cache d); dsize := dsize d |}.
Proof.
  unfold evictOldest, scan_oldest.
  destruct (scan_oldest_acc now (map_to_list (cache d)) (now, ""))
    as (H1 & H2 & H3); [simpl; lia|].
  simpl in *.
  destruct (String.eqb_spec
              (fold_left scan_step (map_to_list (cache d)) (now, "")).2 "")
    as [E|E]; [by left|].
  destruct H3 as [Heq|[Hin Hlt]]; [by rewrite Heq in E|].
  right. apply elem_of_map_to_list in Hin.
  eexists _, _. split; [exact Hin|]. split; [done|]. split; [|done].
  intros k' v' Hk'. rewrite Forall_forall in H2.
  specialize (H2 (k', v')). simpl in H2.
  destruct H2 as [?|?]; [by apply elem_of_map_to_list|lia|lia].
Qed.

(** X9.  A message ID that is not in the cache is reported new and
    remembered with the current second; to make room the call drops at most
    one other entry, only when the cache is at its capacity, and then an
    entry with the smallest timestamp; asked again, whenever, the deduper
    reports the ID as a duplicate and changes nothing. *)
Theorem IsDuplicate_remembers (d : MessageDeduper) (messageID : string)
    (now later : Z) :
  cache d !! messageID = None ->
  let r := IsDuplicate d messageID now in
  r.1 = false /\ dsize r.2 = dsize d /\
  cache r.2 !! messageID = Some now /\
  (cache r.2 = <[messageID := now]> (cache d) \/
   exists k v,
     dsize d <= Z.of_nat (size (cache d)) /\
     cache d !! k = Some v /\ v < now /\
     (forall k' v', cache d !! k' = Some v' -> v <= v') /\
     cache r.2 = <[messageID := now]> (delete k (cache d))) /\
  IsDuplicate r.2 messageID later = (true, r.2).
Proof.
  intros Hnew r. subst r.
  set (d1 := if Z.of_nat (size (cache d)) >=? dsize d
             then evictOldest d now else d).
  assert (Hr : IsDuplicate d messageID now
               = (false, {| cache := <[messageID := now]> (cache d1);
                            dsize := dsize d1 |})).
  { unfold IsDuplicate. by rewrite Hnew. }
  rewrite Hr. cbn [fst snd cache dsize].
  assert (Hagain : IsDuplicate {| cache := <[messageID := now]> (cache d1);
                                  dsize := dsize d1 |} messageID later
                   = (true, {| cache := <[messageID := now]> (cache d1);
                               dsize := dsize d1 |})).
  { unfold IsDuplicate. cbn [cache]. by rewrite lookup_insert_eq. }
  split; [done|].
  assert (Hcases : d1 = d \/
            exists k v,
              dsize d <= Z.of_nat (size (cache d)) /\
              cache d !! k = Some v /\ v < now /\
              (forall k' v', cache d !! k' = Some v' -> v <= v') /\
              d1 = {| cache := delete k (cache d); dsize := dsize d |}).
  { subst d1.
    destruct (Z.geb_spec (Z.of_nat (size (cache d))) (dsize d)) as [Hfull|?];
      [|by left].
    destruct (evictOldest_minimum d now) as [->|(k & v & Hk & Hv & Hmin & ->)];
      [by left|].
    right. exists k, v. repeat split; try done; lia. }
  destruct Hcases as [E|(k & v & Hfull & Hk & Hv & Hmin & E)]; rewrite E in *.
  - split; [done|]. split; [apply lookup_insert_eq|]. split; [by left|done].
  - cbn [cache dsize] in *. split; [done|].
    split; [apply lookup_insert_eq|].
    split; [|done]. right. exists k, v. repeat split; done.
Qed.

Lemma IsDuplicate_remembers_witness :
  IsDuplicate (IsDuplicate (NewMessageDeduper 10000) "m1" 100).2 "m1" 200
  = (true, (IsDuplicate (NewMessageDeduper 10000) "m1" 100).2).
Proof.
  apply (IsDuplicate_remembers (NewMessageDeduper 10000) "m1" 100 200).
  reflexivity.
Defined.

Lemma fold_delete_None now (l : list (string * Z)) :
  forall (c : gmap string Z) (k : string),
  c !! k = None ->
  fold_left (fun c kv => if expired now kv.2 then delete kv.1 c else c) l c
    !! k = None.
Proof.
  induction l as [|kv l IH]; intros c k Hc; [done|]. simpl. apply IH.
  destruct (expired now kv.2); [|done].
  destruct (decide (kv.1 = k)) as [->|]; [apply lookup_delete_eq|].
  by rewrite lookup_delete_ne.
Qed.

Lemma fold_delete_expired now (l : list (string * Z)) :
  forall (c : gmap string Z) (k : string),
  let res := fold_left
               (fun c kv => if expired now kv.2 then delete kv.1 c else c) l c in
  (Exists (fun kv => kv.1 = k /\ expired now kv.2 = true) l ->
   res !! k = None) /\
  (~ Exists (fun kv => kv.1 = k /\ expired now kv.2 = true) l ->
   res !! k = c !! k).
Proof.
  induction l as [|kv l IH]; intros c k; simpl.
  { split; [intros Hex; by apply Exists_nil in Hex|done]. }
  set (c1 := if expired now kv.2 then delete kv.1 c else c).
  destruct (IH c1 k) as [IH1 IH2].
  assert (Hc1 : kv.1 = k -> expired now kv.2 = true -> c1 !! k = None).
  { intros <- He. subst c1. rewrite He. apply lookup_delete_eq. }
  assert (Hc2 : ~ (kv.1 = k /\ expired now kv.2 = true) -> c1 !! k = c !! k).
  { intros Hn. subst c1. destruct (expired now kv.2) eqn:He; [|done].
    apply lookup_delete_ne. intros Hk. by apply Hn. }
  split.
  - intros Hex. apply Exists_cons in Hex as [[Hk He]|Hex]; [|by apply IH1].
    apply fold_delete_None. by apply Hc1.
  - intros Hn. rewrite IH2.
    + apply Hc2. intros Hkv. apply Hn. by apply Exists_cons_hd.
    + intros Hl. apply Hn. by apply Exists_cons_tl.
Qed.

(** X10.  One tick of [cleanup] keeps exactly the entries that are at most
    300 seconds old.  So an ID is reported as a duplicate after the tick
    when it was first seen within the window, and as new again when it was
    seen before. *)
Theorem cleanup_tick_window (d : MessageDeduper) (now : Z) (k : string) :
  let d' := cleanup_tick d now in
  dsize d' = dsize d /\
  cache d' !! k = match cache d !! k with
                  | Some v => if expired now v then None else Some v
                  | None => None
                  end /\
  (forall v later, cache d !! k = Some v ->
     (IsDuplicate d' k later).1 = negb (expired now v)).
Proof.
  intros d'.
  assert (Hk : cache d' !! k = match cache d !! k with
                  | Some v => if expired now v then None else Some v
                  | None => None
                  end).
  { subst d'. unfold cleanup_tick. simpl.
    destruct (fold_delete_expired now (map_to_list (cache d)) (cache d) k)
      as [H1 H2].
    destruct (cache d !! k) as [v|] eqn:Ek.
    - destruct (expired now v) eqn:He.
      + apply H1. apply Exists_exists. exists (k, v).
        split; [|done]. by apply elem_of_map_to_list.
      + rewrite H2; [done|]. intros Hex. apply Exists_exists in Hex
          as ([k' v'] & Hin & Hk' & He').
        simpl in *. subst k'.
        apply elem_of_map_to_list in Hin. congruence.
    - rewrite H2; [done|]. intros Hex. apply Exists_exists in Hex
        as ([k' v'] & Hin & Hk' & He').
      simpl in *. subst k'.
      apply elem_of_map_to_list in Hin. congruence. }
  split; [done|]. split; [done|].
  intros v later Hv. unfold IsDuplicate. rewrite Hk, Hv.
  by destruct (expired now v).
Qed.

Example cleanup_tick_two :
  cache (cleanup_tick deduper_two 402) !! "m1" = None /\
  cache (cleanup_tick deduper_two 402) !! "m2" = Some 350.
Proof. vm_compute. split; reflexivity. Qed.

(* ===================================================================== *)
(** * The handler: origin check and read loop                             *)
(* ===================================================================== *)

(** X12.  [checkOrigin] accepts a request exactly when no origin is
    configured, the request has no Origin header, the wildcard is
    configured, or the origin is one of the configured ones. *)
Theorem checkOrigin_spec (config : HandlerConfig) (origin : string) :
  checkOrigin config origin = true <->
  AllowOrigins config = [] \/ origin = "" \/
  "*" ∈ AllowOrigins config \/ origin ∈ AllowOrigins config.
Proof.
  unfold checkOrigin. destruct (AllowOrigins config) as [|o l] eqn:E.
  { simpl. split; [by left|done]. }
  change ((length (o :: l) =? 0)%nat) with false. cbv iota.
  destruct (String.eqb_spec origin "") as [->|Hne].
  { split; [intros _; right; by left|done]. }
  rewrite existsb_exists. split.
  - intros (x & Hin & Hx). right; right.
    apply list_elem_of_In in Hin. apply orb_true_iff in Hx as [Hx|Hx].
    + apply String.eqb_eq in Hx. subst x. by left.
    + apply String.eqb_eq in Hx. subst x. by right.
  - intros [?|[?|[Hs|Ho]]]; [done|done| |].
    + exists "*". split; [by apply list_elem_of_In|]. by rewrite String.eqb_refl.
    + exists origin. split; [by apply list_elem_of_In|].
      rewrite (String.eqb_refl origin). apply orb_true_r.
Qed.

(** How a [SendMessage] leaves a connection: open or closed as before, in
    the same state, with at most the one item added at the end of its
    queue. *)
Lemma SendMessage_stays c data :
  let c' := (SendMessage c data).1 in
  closed c' = closed c /\ State c' = State c /\ LastActive c' = LastActive c /\
  exists q, buf (Send c') = buf (Send c) ++ q /\ (length q <= 1)%nat.
Proof.
  unfold SendMessage, chan_try_send. destruct (closed c) eqn:E.
  { simpl. rewrite E. repeat split. exists []. split; [by rewrite app_nil_r|simpl; lia]. }
  destruct (_ <? _)%nat; simpl; rewrite ?E; repeat split.
  - exists [data]. split; [done|simpl; lia].
  - exists []. split; [by rewrite app_nil_r|simpl; lia].
Qed.

Section ReadLoopFacts.
Context `{GoLib}.

Lemma route_conn h env conn m :
  let c' := out_conn (route h env conn m) in
  closed c' = closed conn /\ State c' = State conn /\
  LastActive c' = LastActive conn /\
  exists q, buf (Send c') = buf (Send conn) ++ q /\ (length q <= 1)%nat.
Proof.
  assert (Hsame : closed conn = closed conn /\ State conn = State conn /\
            LastActive conn = LastActive conn /\
            exists q, buf (Send conn) = buf (Send conn) ++ q /\
                      (length q <= 1)%nat).
  { repeat split. exists []. split; [by rewrite app_nil_r|simpl; lia]. }
  unfold route, handleHeartbeat, handleSingleChat, handleGroupChat, handleAck,
    handleReadReceipt, handleTyping, SendJSON.
  repeat case_match; simpl; try exact Hsame;
    try apply SendMessage_stays.
  match goal with
  | E : SendMessage ?c ?d = (_, _) |- _ =>
      pose proof (SendMessage_stays c d) as P; rewrite E in P; exact P
  end.
Qed.

Lemma handleMessage_conn h env conn msg :
  let c' := out_conn (handleMessage h env conn msg).2 in
  closed c' = closed conn /\ State c' = State conn /\
  LastActive c' = LastActive conn /\
  exists q, buf (Send c') = buf (Send conn) ++ q /\ (length q <= 1)%nat.
Proof.
  unfold handleMessage. destruct (IsDuplicate _ _ _) as [[] d]; simpl.
  - repeat split. exists []. split; [by rewrite app_nil_r|simpl; lia].
  - apply route_conn.
Qed.

(** X13.  Whatever frame arrives, well-formed or not, the code of the read
    loop and of the handlers leaves the connection open or closed as it was
    and in the same state, sets its last-active time, and adds at most two
    items to its queue (a reply of the handler and an error frame): an
    error of a handler does not end the connection.  The dispatcher, the
    saver and the [onMessage] hook are collaborators behind interfaces;
    they enter by the errors they return. *)
Theorem readFrame_connection_survives (h : WebSocketHandler) (env : Env)
    (nowT : Z) (conn : Connection) (parsed : option Message) :
  let c' := (readFrame h env nowT conn parsed).1.2 in
  closed c' = closed conn /\ State c' = State conn /\
  LastActive c' = nowT /\
  exists q, buf (Send c') = buf (Send conn) ++ q /\ (length q <= 2)%nat.
Proof.
  unfold readFrame, sendError, SendJSON. destruct parsed as [msg|].
  - destruct (handleMessage_conn h env (UpdateLastActive conn nowT) msg)
      as (H1 & H2 & H3 & q & Hq & Hlen).
    destruct (handleMessage h env (UpdateLastActive conn nowT) msg)
      as [h' o]. simpl in *.
    destruct (out_err o); simpl.
    + destruct (SendMessage_stays (out_conn o)
                  (json_Marshal (errorFrame "handle_error" (Error e)
                                   (nowMilli env))))
        as (G1 & G2 & G3 & q' & Hq' & Hlen').
      simpl in *. rewrite G1, G2, G3, H1, H2, H3. repeat split.
      exists (q ++ q'). rewrite Hq', Hq, app_assoc, length_app.
      split; [done|lia].
    + rewrite H1, H2, H3. repeat split. exists q. split; [done|lia].
  - destruct (SendMessage_stays (UpdateLastActive conn nowT)
                (json_Marshal (errorFrame "invalid_message"
                                 "Invalid message format" (nowMilli env))))
      as (G1 & G2 & G3 & q' & Hq' & Hlen').
    simpl in *. rewrite G1, G2, G3. repeat split.
    exists q'. split; [done|lia].
Qed.

(** X14.  A frame that does not parse changes nothing in the handler, not
    even the deduper, and causes no call; the connection gets the structured
    error frame queued when it is open and has room. *)
Theorem readFrame_malformed (h : WebSocketHandler) (env : Env) (nowT : Z)
    (conn : Connection) :
  let r := readFrame h env nowT conn None in
  r.1.1 = h /\ r.2 = [] /\
  (closed conn = false ->
   (length (buf (Send conn)) < cap (Send conn))%nat ->
   buf (Send r.1.2)
   = buf (Send conn)
     ++ [json_Marshal (errorFrame "invalid_message" "Invalid message format"
                         (nowMilli env))]) /\
  (closed conn = true -> r.1.2 = UpdateLastActive conn nowT).
Proof.
  unfold readFrame, sendError, SendJSON. simpl.
  split; [done|]. split; [done|]. split.
  - intros Hopen Hroom.
    by rewrite (SendMessage_room (UpdateLastActive conn nowT) _ Hopen Hroom).
  - intros Hc. by rewrite (SendMessage_closed (UpdateLastActive conn nowT) _ Hc).
Qed.

End ReadLoopFacts.

(* ===================================================================== *)
(** * Conversation identities: decoding and uniqueness                    *)
(* ===================================================================== *)

Lemma last_index_absent c s : has_char c s = false -> last_index c s = None.
Proof.
  induction s as [|a s IH]; [done|]. simpl. intros Hc.
  apply orb_false_iff in Hc as [Ha Hs]. by rewrite (IH Hs), Ha.
Qed.

Lemma last_index_sep c x y :
  has_char c y = false ->
  last_index c (x +:+ String c y) = Some (String.length x).
Proof.
  intros Hy. induction x as [|a x IH]; simpl.
  - by rewrite (last_index_absent _ _ Hy), Ascii.eqb_refl.
  - by rewrite IH.
Qed.

Lemma string_take_app x s : string_take (String.length x) (x +:+ s) = x.
Proof.
  induction x as [|a x IH]; simpl; [by destruct s|]. by rewrite IH.
Qed.

Lemma string_drop_app x s : string_drop (String.length x) (x +:+ s) = s.
Proof. induction x as [|a x IH]; simpl; done. Qed.

Lemma string_drop_sep c x y :
  string_drop (S (String.length x)) (x +:+ String c y) = y.
Proof. induction x as [|a x IH]; simpl; done. Qed.

Lemma prefix_single_underscore s :
  String.prefix "single_" ("single_" +:+ s) = true.
Proof. simpl. by destruct s. Qed.

(** A separator that occurs in neither left part splits in one way only. *)
Lemma sep_split_unique c x x' y y' :
  has_char c x = false -> has_char c x' = false ->
  x +:+ String c y = x' +:+ String c y' -> x = x' /\ y = y'.
Proof.
  revert x'. induction x as [|a x IH]; intros [|a' x'] Hx Hx' Heq;
    simpl in *.
  - by inversion Heq.
  - inversion Heq; subst. by rewrite Ascii.eqb_refl in Hx'.
  - inversion Heq; subst. by rewrite Ascii.eqb_refl in Hx.
  - inversion Heq; subst.
    apply orb_false_iff in Hx as [_ Hx]. apply orb_false_iff in Hx' as [_ Hx'].
    destruct (IH x' Hx Hx' H1) as [-> ->]. done.
Qed.

(** X16.  For user IDs without a colon, [GetSingleChatConversationID] gives
    two pairs the same conversation ID only when they are the same pair, in
    either order. *)
Theorem GetSingleChatConversationID_unique (a b c d : string) :
  has_char ":" a = false -> has_char ":" b = false ->
  has_char ":" c = false -> has_char ":" d = false ->
  GetSingleChatConversationID a b = GetSingleChatConversationID c d ->
  (a = c /\ b = d) \/ (a = d /\ b = c).
Proof.
  intros Ha Hb Hc Hd. unfold GetSingleChatConversationID.
  destruct (String.ltb a b), (String.ltb c d); simpl; intros Heq;
    inversion Heq as [Heq'];
    apply sep_split_unique in Heq' as [-> ->]; auto.
Qed.

Lemma GetSingleChatConversationID_unique_witness :
  ("alice" = "alice" /\ "bob" = "bob") \/ ("alice" = "bob" /\ "bob" = "alice").
Proof.
  apply (GetSingleChatConversationID_unique "alice" "bob" "alice" "bob");
    reflexivity.
Defined.

(** X15.  The conversation ID that [GenerateConversationID] makes for the
    sender and a peer, both IDs without an underscore, is decoded by
    [handleReadReceipt] back to the peer: the receipt is forwarded to the
    peer and to nobody else. *)
Theorem handleReadReceipt_underscore_peer (h : WebSocketHandler)
    (conn : Connection) (msg : Message) (content : ReadReceiptContent)
    (peer : string) :
  readReceiptContent (Content msg) = Some content ->
  rr_ConversationID content = GenerateConversationID 1 (UserID conn) peer ->
  has_char "_" (UserID conn) = false ->
  has_char "_" peer = false ->
  peer <> UserID conn ->
  out_calls (handleReadReceipt h conn msg) = [CallDispatchToUsers [peer] msg].
Proof.
  intros Hc Hid Hu Hp Hne. unfold handleReadReceipt. rewrite Hc, Hid.
  unfold GenerateConversationID. change (1 =? 1) with true. cbv iota.
  destruct (String.ltb (UserID conn) peer).
  - rewrite prefix_single_underscore.
    change (string_drop 7 ("single_" +:+ UserID conn +:+ "_" +:+ peer))
      with (UserID conn +:+ String "_" peer).
    rewrite (last_index_sep _ _ _ Hp), string_take_app, string_drop_sep.
    by rewrite String.eqb_refl.
  - rewrite prefix_single_underscore.
    change (string_drop 7 ("single_" +:+ peer +:+ "_" +:+ UserID conn))
      with (peer +:+ String "_" (UserID conn)).
    rewrite (last_index_sep _ _ _ Hu), string_take_app, string_drop_sep.
    destruct (String.eqb_spec peer (UserID conn)); done.
Qed.

Lemma handleReadReceipt_underscore_peer_witness :
  out_calls (handleReadReceipt example_handler alice2 receipt_frame_underscore)
  = [CallDispatchToUsers ["bob"] receipt_frame_underscore].
Proof.
  apply (handleReadReceipt_underscore_peer example_handler alice2
           receipt_frame_underscore _ "bob" eq_refl eq_refl);
    [reflexivity | reflexivity | discriminate].
Defined.

(* ===================================================================== *)
(** * Dispatcher: the three routes and their composition                  *)
(* ===================================================================== *)

Lemma collect_errors_None errs : collect_errors errs = None <-> errs = [].
Proof. destruct errs; simpl; split; congruence. Qed.

Section DispatchRoutes.
Context `{GoLib}.

Lemma dispatch_one_local d data msg uid conn :
  localConns d !! uid = Some conn -> SendData conn data = None ->
  dispatch_one d data msg uid = ([EffSendData uid data], None).
Proof.
  intros Hl Hs. unfold dispatch_one, pushToLocalUser. by rewrite Hl, Hs.
Qed.


(** X17.  [DispatchToUsers] treats its targets one by one: the effects for a
    list of targets are the effects for its first part followed by those for
    the rest, whatever went wrong in either part, and the call returns [nil]
    exactly when both parts would. *)
Theorem DispatchToUsers_app (d : messageDispatcherImpl) (l1 l2 : list string)
    (msg : Message) :
  (DispatchToUsers d (l1 ++ l2) msg).1
  = (DispatchToUsers d l1 msg).1 ++ (DispatchToUsers d l2 msg).1 /\
  ((DispatchToUsers d (l1 ++ l2) msg).2 = None <->
   (DispatchToUsers d l1 msg).2 = None /\ (DispatchToUsers d l2 msg).2 = None).
Proof.
  rewrite !DispatchToUsers_unfold. cbv zeta. cbn [fst snd].
  rewrite !map_app, concat_app. split; [done|].
  rewrite !collect_errors_None.
  set (f := dispatch_one d (json_Marshal msg) msg).
  assert (Happ : omap snd (map f l1 ++ map f l2)
                 = omap snd (map f l1) ++ omap snd (map f l2)).
  { generalize (map f l1) as r1. intros r1. induction r1 as [|[e o] r1 IH].
    - done.
    - change (omap snd (((e, o) :: r1) ++ map f l2))
        with (match o with
              | Some y => y :: omap snd (r1 ++ map f l2)
              | None => omap snd (r1 ++ map f l2)
              end).
      change (omap snd ((e, o) :: r1))
        with (match o with
              | Some y => y :: omap snd r1
              | None => omap snd r1
              end).
      rewrite IH. by destruct o. }
  rewrite Happ. split.
  - intros E. by apply app_eq_nil in E.
  - intros [-> ->]. done.
Qed.


(** X19.  A target with a local connection whose send fails (a full queue, a
    closed connection) is not lost: the dispatcher goes on to the online
    record, and with no record and a saver the message is saved offline, the
    call reporting only what the saver returns. *)
Theorem DispatchToUsers_local_failure (d : messageDispatcherImpl)
    (saver : OfflineMessageSaver) (uid : string) (conn : LocalConn)
    (e : error) (msg : Message) :
  localConns d !! uid = Some conn ->
  SendData conn (json_Marshal msg) = Some e ->
  redis_Get (redis d) (onlineKey uid) = RNil ->
  offlineSaver d = Some saver ->
  DispatchToUsers d [uid] msg
  = ([EffSendData uid (json_Marshal msg); EffSaveOfflineMessage uid msg],
     collect_errors
       (omap (fun u => wrap_err "save offline message error" (saver u msg))
          [uid])).
Proof.
  intros Hl Hs Hr Hsv. rewrite DispatchToUsers_unfold. cbv zeta. simpl map.
  unfold dispatch_one, pushToLocalUser.
  rewrite Hl, Hs, (GetUserNode_missing _ _ Hr), Hsv. simpl.
  by destruct (saver uid msg).
Qed.

(** X20.  [handleRouteMessage] delivers an envelope to local connections
    only: its effects are one [SendData] for each target that has a local
    connection, in the order of the envelope; it never publishes and never
    saves offline. *)
Theorem handleRouteMessage_local_only (d : messageDispatcherImpl)
    (routeMsg : RouteMessage) :
  handleRouteMessage d routeMsg
  = map (fun u => EffSendData u (json_Marshal (RMessage routeMsg)))
      (List.filter (fun u => bool_decide (is_Some (localConns d !! u)))
         (TargetUsers routeMsg)).
Proof.
  unfold handleRouteMessage.
  induction (TargetUsers routeMsg) as [|u l IH]; [done|].
  simpl. rewrite IH. unfold pushToLocalUser.
  destruct (localConns d !! u) as [c|] eqn:E.
  - rewrite bool_decide_true by eauto. by destruct (SendData c _).
  - rewrite bool_decide_false; [done|]. by intros [? ?].
Qed.

End DispatchRoutes.


Lemma DispatchToUsers_local_failure_witness :
  (@DispatchToUsers example_lib mixed_dispatcher ["sam"] chat_to_bob).1
  = [EffSendData "sam" (@json_Marshal example_lib chat_to_bob);
     EffSaveOfflineMessage "sam" chat_to_bob].
Proof.
  rewrite (@DispatchToUsers_local_failure example_lib mixed_dispatcher
             (fun _ _ => None) "sam" conn_full (EConn ErrSendBufferFull)
             chat_to_bob eq_refl eq_refl eq_refl eq_refl).
  reflexivity.
Defined.

(* ===================================================================== *)
(** * Dispatcher: the local table and conversations                       *)
(* ===================================================================== *)

Section DispatcherTable.
Context `{GoLib}.

(** X21.  [RegisterConnection] makes the user local whatever the store
    answers: the command sent is a [SETEX] of the user's online key to
    ["<node>:<seconds>"], its error is returned as it is, and a dispatch to
    the user then goes through the registered connection alone; other users
    are routed as before.  [UnregisterConnection] undoes it: the user is no
    longer local. *)
Theorem RegisterConnection_local (d : messageDispatcherImpl) (userID : string)
    (conn : LocalConn) (now : Z) (res res' : option error) (msg : Message) :
  SendData conn (json_Marshal msg) = None ->
  let r := RegisterConnection d userID conn now res in
  let d' := r.1.1 in
  let u := UnregisterConnection d' userID res' in
  r.2 = res /\
  r.1.2 = CmdSetEX ("online:" +:+ userID)
            (dc_NodeID (dconfig d) +:+ ":" +:+ Sprintf_d now)
            (OnlineKeyExpire (dconfig d)) /\
  DispatchToUsers d' [userID] msg
    = ([EffSendData userID (json_Marshal msg)], None) /\
  (forall v data, v <> userID ->
     dispatch_one d' data msg v = dispatch_one d data msg v) /\
  u.1.2 = CmdDel ("online:" +:+ userID) /\ u.2 = res' /\
  (forall data, pushToLocalUser u.1.1 userID data = (false, [])) /\
  localConns u.1.1 = delete userID (localConns d).
Proof.
  intros Hs r d' u. subst r d' u. cbn [fst snd RegisterConnection UnregisterConnection].
  split; [done|]. split; [done|]. split.
  { rewrite DispatchToUsers_unfold. cbv zeta. simpl map.
    rewrite (dispatch_one_local _ _ _ _ conn); [done| |done].
    simpl. apply lookup_insert_eq. }
  split.
  { intros v data Hv. unfold dispatch_one, pushToLocalUser, GetUserNode.
    simpl. by rewrite lookup_insert_ne. }
  split; [done|]. split; [done|]. split.
  { intros data. unfold pushToLocalUser. simpl. by rewrite lookup_delete_eq. }
  simpl. by rewrite delete_insert_eq.
Qed.

Lemma conversation_groupID_group g :
  g <> "" -> conversation_groupID (GetGroupChatConversationID g) = g.
Proof. destruct g as [|c g]; [done|]. reflexivity. Qed.

Lemma single_targets_group g found :
  single_targets (GetGroupChatConversationID g) found = found.
Proof.
  unfold single_targets, GetGroupChatConversationID.
  destruct g as [|c g]; [done|]. simpl. by rewrite andb_false_r.
Qed.

Lemma exclude_user_absent ex l : ex <> "" -> ~ In ex (exclude_user ex l).
Proof.
  intros Hne. unfold exclude_user.
  destruct (String.eqb_spec ex ""); [done|].
  intros Hin. apply filter_In in Hin as [_ Hin].
  by rewrite String.eqb_refl in Hin.
Qed.

(** X22.  A group message goes to the members of its group without the
    sender: for the conversation ID that [GetGroupChatConversationID] makes
    of a non-empty group ID, [DispatchToConversation] asks the member getter
    for exactly that group and dispatches to the members it returns, the
    excluded user removed. *)
Theorem DispatchToConversation_group (d : messageDispatcherImpl)
    (gs : GroupSource) (getter : string -> list string * option error)
    (g : string) (members : list string) (msg : Message) (exclude : string) :
  g <> "" ->
  groupMemberGetter gs = Some getter ->
  getter g = (members, None) ->
  exclude <> "" ->
  DispatchToConversation d gs (GetGroupChatConversationID g) msg exclude
  = DispatchToUsers d
      (List.filter (fun uid => negb (String.eqb uid exclude)) members) msg /\
  ~ In exclude (List.filter (fun uid => negb (String.eqb uid exclude)) members).
Proof.
  intros Hg Hget Hm Hex. split.
  - unfold DispatchToConversation.
    rewrite (conversation_groupID_group _ Hg).
    destruct (String.eqb_spec g ""); [done|].
    unfold group_members. rewrite Hget, Hm, single_targets_group.
    unfold exclude_user. by destruct (String.eqb_spec exclude "").
  - pose proof (exclude_user_absent exclude members Hex) as P.
    unfold exclude_user in P. by destruct (String.eqb_spec exclude "").
Qed.

(** X23.  A conversation ID made by [GetSingleChatConversationID] names no
    target for [DispatchToConversation]: it starts with ["single:"], which
    is neither a group prefix nor ["single_"], so nothing is sent, published
    or saved, and [nil] is returned. *)
Theorem DispatchToConversation_colon_single (d : messageDispatcherImpl)
    (gs : GroupSource) (a b : string) (msg : Message) (exclude : string) :
  DispatchToConversation d gs (GetSingleChatConversationID a b) msg exclude
  = ([], None).
Proof.
  unfold DispatchToConversation, GetSingleChatConversationID.
  assert (Hno : forall s,
            conversation_groupID ("single:" +:+ s) = "" /\
            single_targets ("single:" +:+ s) [] = []).
  { intros s. unfold conversation_groupID, single_targets. simpl.
    by rewrite !andb_false_r. }
  destruct (String.ltb a b).
  - destruct (Hno (a +:+ ":" +:+ b)) as [E1 E2]. rewrite E1.
    change (String.eqb "" "") with true. cbv iota beta. rewrite E2.
    unfold exclude_user. by destruct (String.eqb exclude "").
  - destruct (Hno (b +:+ ":" +:+ a)) as [E1 E2]. rewrite E1.
    change (String.eqb "" "") with true. cbv iota beta. rewrite E2.
    unfold exclude_user. by destruct (String.eqb exclude "").
Qed.

Lemma length_sep c x y :
  String.length (x +:+ String c y) = S (String.length x + String.length y).
Proof. induction x as [|a x IH]; simpl; [done|]. by rewrite IH. Qed.

Lemma single_targets_underscore x y found :
  has_char "_" y = false ->
  single_targets ("single_" +:+ x +:+ "_" +:+ y) found = [x; y].
Proof.
  intros Hy. unfold single_targets.
  change (String.length ("single_" +:+ x +:+ "_" +:+ y))
    with (7 + String.length (x +:+ String "_" y))%nat.
  rewrite length_sep.
  destruct (Nat.ltb_spec 7 (7 + S (String.length x + String.length y)));
    [|lia].
  change (string_take 7 ("single_" +:+ x +:+ "_" +:+ y)) with "single_".
  change (string_drop 7 ("single_" +:+ x +:+ "_" +:+ y))
    with (x +:+ String "_" y).
  simpl andb. cbv iota.
  by rewrite (last_index_sep _ _ _ Hy), string_take_app, string_drop_sep.
Qed.

Lemma conversation_groupID_single s :
  conversation_groupID ("single_" +:+ s) = "".
Proof. unfold conversation_groupID. simpl. by rewrite ?andb_false_r. Qed.

(** X24.  A conversation ID made by [GenerateConversationID] for a sender
    and a peer, both IDs without an underscore, is decoded by
    [DispatchToConversation] into the two users; with the sender excluded
    the message is dispatched to the peer alone. *)
Theorem DispatchToConversation_underscore_single (d : messageDispatcherImpl)
    (gs : GroupSource) (sender peer : string) (msg : Message) :
  has_char "_" sender = false -> has_char "_" peer = false ->
  sender <> "" -> peer <> sender ->
  DispatchToConversation d gs (GenerateConversationID 1 sender peer) msg sender
  = DispatchToUsers d [peer] msg.
Proof.
  intros Hs Hp Hne Hdiff. unfold DispatchToConversation, GenerateConversationID.
  change (1 =? 1) with true. cbv iota.
  assert (Hex : exclude_user sender [sender; peer] = [peer] /\
                exclude_user sender [peer; sender] = [peer]).
  { unfold exclude_user. destruct (String.eqb_spec sender ""); [done|].
    simpl. rewrite (String.eqb_refl sender).
    destruct (String.eqb_spec peer sender); done. }
  destruct Hex as [Hex1 Hex2].
  destruct (String.ltb sender peer); rewrite conversation_groupID_single;
    simpl String.eqb; cbv iota.
  - by rewrite (single_targets_underscore _ _ _ Hp), Hex1.
  - by rewrite (single_targets_underscore _ _ _ Hs), Hex2.
Qed.

End DispatcherTable.

Lemma RegisterConnection_local_witness :
  @DispatchToUsers example_lib
    (RegisterConnection dispatcher_with_saver "bob" conn_ok 1700000000 None).1.1
    ["bob"] chat_to_bob
  = ([EffSendData "bob" (@json_Marshal example_lib chat_to_bob)], None).
Proof.
  apply (@RegisterConnection_local example_lib dispatcher_with_saver "bob"
           conn_ok 1700000000 None None chat_to_bob).
  reflexivity.
Defined.

Lemma DispatchToConversation_group_witness :
  @DispatchToConversation example_lib dispatcher_with_saver example_groups
    (GetGroupChatConversationID "group_42") chat_to_bob "alice"
  = @DispatchToUsers example_lib dispatcher_with_saver ["bob"; "carol"]
      chat_to_bob.
Proof.
  apply (@DispatchToConversation_group example_lib dispatcher_with_saver
           example_groups example_getter "group_42" ["alice"; "bob"; "carol"]
           chat_to_bob
           "alice"); [discriminate | reflexivity | reflexivity | discriminate].
Defined.

Lemma DispatchToConversation_underscore_single_witness :
  @DispatchToConversation example_lib dispatcher_with_saver example_groups
    (GenerateConversationID 1 "alice" "bob") chat_to_bob "alice"
  = @DispatchToUsers example_lib dispatcher_with_saver ["bob"] chat_to_bob.
Proof.
  apply (@DispatchToConversation_underscore_single example_lib
           dispatcher_with_saver example_groups "alice" "bob" chat_to_bob);
    try reflexivity; discriminate.
Defined.

(* ===================================================================== *)
(** * MessageDeduper: the capacity over a run of calls                    *)
(* ===================================================================== *)









(* ===================================================================== *)
(** * Dispatcher: records that do not lead to another node                *)
(* ===================================================================== *)

Section DispatchEdges.
Context `{GoLib}.


(** X25.  A target without a local connection whose online record yields
    this node itself, or no node at all, is treated as offline: with a saver
    the message is saved offline once, nothing is published, and the call
    reports only what the saver returns. *)
Theorem DispatchToUsers_stale_record (d : messageDispatcherImpl)
    (saver : OfflineMessageSaver) (uid val : string) (msg : Message) :
  localConns d !! uid = None ->
  redis_Get (redis d) (onlineKey uid) = RVal val ->
  Sscanf_nodeID val = "" \/ Sscanf_nodeID val = dc_NodeID (dconfig d) ->
  offlineSaver d = Some saver ->
  DispatchToUsers d [uid] msg
  = ([EffSaveOfflineMessage uid msg],
     collect_errors
       (omap (fun u => wrap_err "save offline message error" (saver u msg))
          [uid])).
Proof.
  intros Hl Hr Hnode Hsv. rewrite DispatchToUsers_unfold. cbv zeta. simpl map.
  unfold dispatch_one, pushToLocalUser, GetUserNode. rewrite Hl, Hr, Hsv.
  assert (Hb : negb (String.eqb (Sscanf_nodeID val) "")
               && negb (String.eqb (Sscanf_nodeID val) (dc_NodeID (dconfig d)))
               = false).
  { destruct Hnode as [->| ->].
    - reflexivity.
    - rewrite String.eqb_refl. apply andb_false_r. }
  rewrite Hb. simpl. by destruct (saver uid msg).
Qed.


(** X27.  [SendDirectMessage] involves the local table only: it returns
    [nil] exactly when the user has a local connection that takes the data,
    its only possible effect is one send to that user, and when it returns
    [nil] a [DispatchToUsers] to the user alone does the same; it never
    publishes and never saves offline, where [DispatchToUsers] would. *)
Theorem SendDirectMessage_local_only (d : messageDispatcherImpl)
    (userID : string) (msg : Message) :
  let r := SendDirectMessage d userID msg in
  (r.2 = None <->
   exists conn, localConns d !! userID = Some conn /\
                SendData conn (json_Marshal msg) = None) /\
  (localConns d !! userID = None -> r.1 = []) /\
  (forall e, e ∈ r.1 -> e = EffSendData userID (json_Marshal msg)) /\
  (r.2 = None -> DispatchToUsers d [userID] msg = r).
Proof.
  unfold SendDirectMessage. rewrite DispatchToUsers_unfold. cbv zeta.
  simpl map. unfold dispatch_one, pushToLocalUser.
  destruct (localConns d !! userID) as [conn|] eqn:El.
  - destruct (SendData conn (json_Marshal msg)) as [e|] eqn:Es; simpl.
    + split; [split; [done|]|].
      { intros (c & Hc & Hs). congruence. }
      split; [done|]. split; [|done].
      intros x Hx. by apply list_elem_of_singleton in Hx.
    + split; [split; [|done]|].
      { intros _. by exists conn. }
      split; [done|]. split; [|done].
      intros x Hx. by apply list_elem_of_singleton in Hx.
  - simpl. split; [split; [done|]|].
    { intros (c & Hc & _). congruence. }
    split; [done|]. split; [|done].
    intros x Hx. by apply elem_of_nil in Hx.
Qed.

End DispatchEdges.

Lemma DispatchToUsers_stale_record_witness :
  @DispatchToUsers example_lib mixed_dispatcher ["kim"] chat_to_bob
  = ([EffSaveOfflineMessage "kim" chat_to_bob], None).
Proof.
  apply (@DispatchToUsers_stale_record example_lib mixed_dispatcher
           (fun _ _ => None) "kim" "node1:1700000000" chat_to_bob);
    [reflexivity | reflexivity | right; reflexivity | reflexivity].
Defined.


(* ===================================================================== *)
(** * The write loop: order and loss of outbound data                     *)
(* ===================================================================== *)

Lemma texts_app out1 out2 : texts (out1 ++ out2) = texts out1 ++ texts out2.
Proof. apply omap_app. Qed.

Lemma chan_recv_item ch data ch' :
  chan_recv ch = Some (Some data, ch') -> buf ch = data :: buf ch'.
Proof.
  unfold chan_recv. destruct (buf ch) as [|x rest].
  - destruct (chClosed ch); discriminate.
  - by intros [= <- <-].
Qed.

Lemma chan_recv_closed ch ch' :
  chan_recv ch = Some (None, ch') -> buf ch = [] /\ ch' = ch.
Proof.
  unfold chan_recv. destruct (buf ch) as [|x rest]; [|discriminate].
  destruct (chClosed ch); [|discriminate]. by intros [= <-].
Qed.

Lemma Close_Send_buf c : buf (Send (Close c).1) = buf (Send c).
Proof. unfold Close. by destruct (closed c). Qed.

Lemma Close_keeps_closed c : closed c = true -> closed (Close c).1 = true.
Proof. intros Hc. by rewrite (Close_again _ Hc). Qed.

Lemma outbound_inv_start c : outbound_inv (outbound_start c).
Proof. exists []. repeat split; [simpl; lia|done]. Qed.

Lemma outbound_inv_step s s' :
  outbound_step s s' -> outbound_inv s -> outbound_inv s'.
Proof.
  intros Hstep (lost & Hlog & Hlen & Hrun & Hret).
  destruct Hstep as [s p' Hp|s data|s|s now].
  - destruct Hp as [p data ch Hr Hrecv|p data ch Hr Hrecv|p ch sent Hr Hrecv
                   |p Hr|p Hr|p Hr Hdone];
      rewrite (Hrun Hr) in Hlog; simpl in Hlog.
    + exists []. apply chan_recv_item in Hrecv. cbn.
      rewrite texts_app, Hlog, Hrecv. simpl.
      split; [by rewrite <- app_assoc|]. split; [lia|]. split; done.
    + exists [data]. apply chan_recv_item in Hrecv. cbn.
      rewrite Close_Send_buf, Hlog, Hrecv. simpl.
      split; [done|]. split; [lia|]. split; [done|].
      intros _. apply Close_closed.
    + exists []. cbn. rewrite Close_Send_buf, texts_app, Hlog.
      split; [destruct sent; simpl; by rewrite app_nil_r|].
      split; [lia|]. split; [done|]. intros _. apply Close_closed.
    + exists []. cbn. rewrite texts_app, Hlog. simpl.
      split; [by rewrite app_nil_r|]. split; [lia|]. split; done.
    + exists []. cbn. rewrite Close_Send_buf, Hlog.
      split; [done|]. split; [lia|]. split; [done|].
      intros _. apply Close_closed.
    + exists []. cbn. rewrite Close_Send_buf, Hlog.
      split; [done|]. split; [lia|]. split; [done|].
      intros _. apply Close_closed.
  - exists lost. cbn.
    split; [|split; [done|split; [done|]]].
    + unfold SendMessage, chan_try_send.
      destruct (closed (pconn (pump s))); simpl.
      { by rewrite app_nil_r. }
      destruct (_ <? _)%nat; simpl.
      * rewrite Hlog, <- !app_assoc. done.
      * by rewrite app_nil_r.
    + intros Hr. destruct (SendMessage_stays (pconn (pump s)) data) as [Hc _].
      cbv zeta in Hc. rewrite Hc. by apply Hret.
  - exists lost. cbn. rewrite Close_Send_buf.
    split; [done|]. split; [done|]. split; [done|].
    intros Hr. by apply Close_keeps_closed, Hret.
  - exists lost. cbn. split; [done|]. split; [done|]. split; [done|].
    intros Hr. by apply Hret.
Qed.

(** X28.  The outbound path of a connection, for every interleaving of the
    write loop with [SendMessage], [Close] and [UpdateLastActive] calls of
    other goroutines and every behaviour of the transport: the data that
    [SendMessage] accepted are, in the order of acceptance, the text frames
    on the wire, then at most one item taken from the queue by a write that
    failed, then the items still queued.  So frames are written in the
    order they were accepted, none twice and none skipped; while the loop
    runs nothing is lost; and once the loop has returned the connection is
    closed. *)
Theorem writePump_fifo (c : Connection) (s : Outbound) :
  rtc outbound_step (outbound_start c) s ->
  exists lost : list bytes,
    log s = texts (wire (pump s)) ++ lost ++ buf (Send (pconn (pump s))) /\
    (length lost <= 1)%nat /\
    (running (pump s) = true -> lost = []) /\
    (running (pump s) = false -> closed (pconn (pump s)) = true).
Proof.
  intros Hrun. change (outbound_inv s). revert s Hrun.
  apply (rtc_ind_r outbound_inv).
  - apply outbound_inv_start.
  - intros y z _ Hstep Hy. by apply (outbound_inv_step y).
Qed.

Lemma writePump_fifo_witness : outbound_inv wrote_hello.
Proof.
  unfold outbound_inv. apply (writePump_fifo alice1 wrote_hello).
  eapply rtc_l; [apply (ob_SendMessage _ hello)|].
  eapply rtc_l.
  { apply ob_pump.
    apply (wp_text _ hello (Send alice1)); reflexivity. }
  apply rtc_refl.
Defined.

(* ===================================================================== *)
(** * Dispatcher: the broadcast to all nodes                              *)
(* ===================================================================== *)

Section BroadcastAllNodes.
Context `{GoLib}.

(** X29.  [BroadcastToAllNodes], when the node set is read: it returns
    [nil]; every local connection gets one send of the message; every node
    of the set other than this one gets one publish on its channel, and
    every publish carries the same envelope, whose only target is the user
    ID ["*"].  [handleRouteMessage] has no case for that ID: on the
    receiving node the envelope causes no send to any user other than one
    registered under ["*"]. *)
Theorem BroadcastToAllNodes_star (d d' : messageDispatcherImpl)
    (nodes : list string) (msg : Message) :
  let r := BroadcastToAllNodes d (nodes, None) msg in
  let envelope := {| TargetUsers := ["*"]; RMessage := msg |} in
  r.2 = None /\
  (forall u conn, localConns d !! u = Some conn ->
     EffSendData u (json_Marshal msg) ∈ r.1) /\
  (forall n, n ∈ nodes -> n <> dc_NodeID (dconfig d) ->
     EffPublish (PublishChannelPrefix (dconfig d) +:+ n)
       (json_Marshal_route envelope) ∈ r.1) /\
  (forall ch data, EffPublish ch data ∈ r.1 ->
     data = json_Marshal_route envelope /\
     exists n, n ∈ nodes /\ n <> dc_NodeID (dconfig d) /\
               ch = PublishChannelPrefix (dconfig d) +:+ n) /\
  (forall u data, EffSendData u data ∈ handleRouteMessage d' envelope ->
     u = "*" /\ is_Some (localConns d' !! "*")).
Proof.
  intros r envelope. subst r. unfold BroadcastToAllNodes, BroadcastToAll.
  cbn [fst snd]. split; [done|]. split.
  { intros u conn Hu. apply elem_of_app. left.
    apply list_elem_of_fmap. exists (u, conn). split; [done|].
    by apply elem_of_map_to_list. }
  split.
  { intros n Hn Hne. apply elem_of_app. right.
    apply list_elem_of_fmap. exists n. split; [done|].
    apply list_elem_of_In, filter_In. split; [by apply list_elem_of_In|].
    by destruct (String.eqb_spec n (dc_NodeID (dconfig d))). }
  split.
  { intros ch data Hin. apply elem_of_app in Hin as [Hin|Hin].
    - apply list_elem_of_fmap in Hin as (kv & Heq & _). discriminate.
    - apply list_elem_of_fmap in Hin as (n & Heq & Hn).
      inversion Heq; subst. split; [done|]. exists n.
      apply list_elem_of_In, filter_In in Hn as [Hn Hne].
      split; [by apply list_elem_of_In|]. split; [|done].
      by destruct (String.eqb_spec n (dc_NodeID (dconfig d))). }
  intros u data. unfold handleRouteMessage, pushToLocalUser. simpl.
  destruct (localConns d' !! "*") as [conn|]; [|by intros Hin%elem_of_nil].
  rewrite app_nil_r. intros Hin.
  assert (Hone : EffSendData u data
                 ∈ [EffSendData "*" (json_Marshal msg)]).
  { by destruct (SendData conn (json_Marshal msg)). }
  apply list_elem_of_singleton in Hone. inversion Hone. split; [done|eauto].
Qed.

End BroadcastAllNodes.
